(** * Periodic-boundary numerical integration kernels (pbc/dft/numint.py)

    A shallow embedding of the four pieces of [pbc/dft/numint.py]:
    the periodic AO evaluator [eval_ao], the density evaluator [eval_rho],
    the potential-matrix evaluator [eval_mat] and the k-point adapter
    class [_NumInt].

    Modelling conventions.
    - numpy [float64] scalars are read as real numbers ([R]) and
      [complex128] scalars as pairs of reals ([C]): every statement below
      is a statement of exact arithmetic.
    - A numpy array is the nested list of its entries (row-major); the
      dtype is a tag on the whole array ([Float64] / [Complex128]).
    - Entrywise operations and contractions are written as in the einsum
      index notation of the source: the result is tabulated over its shape
      and the operands are read by index.  Reading outside an operand
      yields [0]; numpy refuses such shape-inconsistent calls, which are
      therefore not described by this model.
    - Python exceptions are values of [exn], carried by [result]. *)

From Stdlib Require Import Reals List ZArith Lia Lra Bool Arith.
Import ListNotations.

Set Implicit Arguments.

(** ** Exceptions *)

Inductive exn : Type :=
| AssertionError
| NotImplementedError
| ValueError
| IndexError.

Inductive result (A : Type) : Type :=
| Ok (a : A)
| Raise (e : exn).

Arguments Ok {A} a.
Arguments Raise {A} e.

Definition bind {A B : Type} (m : result A) (k : A -> result B) : result B :=
  match m with
  | Ok a => k a
  | Raise e => Raise e
  end.

Notation "x <- m ;; k" := (bind m (fun x => k))
  (at level 61, m at next level, right associativity).
Notation "' pat <- m ;; k" := (bind m (fun x => match x with pat => k end))
  (at level 61, pat pattern, m at next level, right associativity).

(** [assert(b)] *)
Definition py_assert (b : bool) : result unit :=
  if b then Ok tt else Raise AssertionError.

(** [l[i]] on the leading axis: [IndexError] when out of range. *)
Definition getitem {T : Type} (l : list T) (i : nat) : result T :=
  match nth_error l i with
  | Some x => Ok x
  | None => Raise IndexError
  end.

(** ** Scalars: [float64] as [R], [complex128] as a pair of reals *)

Local Open Scope R_scope.

Record C : Type := mkC { Re : R; Im : R }.

Definition C0 : C := mkC 0 0.
Definition Ci : C := mkC 0 1.                       (* the literal [1j] *)
Definition RtoC (x : R) : C := mkC x 0.             (* float -> complex promotion *)
Definition Cadd (z w : C) : C := mkC (Re z + Re w) (Im z + Im w).
Definition Cmul (z w : C) : C :=
  mkC (Re z * Re w - Im z * Im w) (Re z * Im w + Im z * Re w).
Definition Cconj (z : C) : C := mkC (Re z) (- Im z).
(** [np.exp] on a complex number. *)
Definition Cexp (z : C) : C := mkC (exp (Re z) * cos (Im z)) (exp (Re z) * sin (Im z)).

(** ** Index sums (the summed indices of [einsum] and [dot]) *)

Fixpoint sum_n (n : nat) (f : nat -> R) : R :=
  match n with
  | O => 0
  | S k => sum_n k f + f k
  end.

Definition Csum_n (n : nat) (f : nat -> C) : C :=
  mkC (sum_n n (fun k => Re (f k))) (sum_n n (fun k => Im (f k))).

(** ** Arrays *)

Definition mat (T : Type) : Type := list (list T).

(** Arrays of rank 2, [(ngrids, nao)], and of rank 3, [(4, ngrids, nao)]. *)
Inductive nd (T : Type) : Type :=
| Nd2 (a : mat T)
| Nd3 (t : list (mat T)).

Inductive dtype : Type := float64 | complex128.

(** A rank-2 array together with its dtype (density and potential
    matrices, one component of the orbital array). *)
Inductive matrix : Type :=
| F64 (d : mat R)
| C128 (d : mat C).

(** An orbital array together with its dtype. *)
Inductive ndarray : Type :=
| Float64 (d : nd R)
| Complex128 (d : nd C).

(** The density array: [(ngrids,)] or [(4, ngrids)], always real. *)
Inductive rho_array : Type :=
| Rho1 (v : list R)
| Rho2 (m : mat R).

Definition ndim (rho : rho_array) : nat :=
  match rho with Rho1 _ => 1 | Rho2 _ => 2 end.

Definition tabulate {T : Type} (n : nat) (f : nat -> T) : list T :=
  map f (seq 0 n).

Definition tabulate2 {T : Type} (n m : nat) (f : nat -> nat -> T) : mat T :=
  tabulate n (fun p => tabulate m (fun i => f p i)).

Definition nrows {T : Type} (a : mat T) : nat := length a.
Definition ncols {T : Type} (a : mat T) : nat := length (hd [] a).

(** [a.shape] of a rank-2 array. *)
Definition shape2 {T : Type} (a : mat T) : nat * nat := (nrows a, ncols a).

Definition get2 (a : mat R) (p i : nat) : R := nth i (nth p a []) 0.
Definition cget2 (a : mat C) (p i : nat) : C := nth i (nth p a []) C0.
Definition cget3 (t : list (mat C)) (n p i : nat) : C := cget2 (nth n t []) p i.

(** [a.real], [a.imag] and [a.dtype] of a rank-2 array. *)
Definition real2 (a : matrix) : mat R :=
  match a with
  | F64 d => d
  | C128 d => map (map Re) d
  end.

Definition imag2 (a : matrix) : mat R :=
  match a with
  | F64 d => map (map (fun _ => 0)) d
  | C128 d => map (map Im) d
  end.

Definition dtype_eqb (a b : dtype) : bool :=
  match a, b with
  | float64, float64 | complex128, complex128 => true
  | _, _ => false
  end.

(** [a.astype(complex128)] *)
Definition astype_complex (d : nd R) : nd C :=
  match d with
  | Nd2 a => Nd2 (map (map RtoC) a)
  | Nd3 t => Nd3 (map (map (map RtoC)) t)
  end.

(** [ao[i]] used as a rank-2 array [(ngrids, nao)]: component [i] of an
    orbital array of rank 3, of the same dtype.  On a rank-2 array [ao[i]]
    is a row, whose shape does not unpack into [ngrids, nao]. *)
Definition component (ao : ndarray) (i : nat) : result matrix :=
  match ao with
  | Float64 (Nd3 t) => a <- getitem t i ;; Ok (F64 a)
  | Complex128 (Nd3 t) => a <- getitem t i ;; Ok (C128 a)
  | Float64 (Nd2 a) => _ <- getitem a i ;; Raise ValueError
  | Complex128 (Nd2 a) => _ <- getitem a i ;; Raise ValueError
  end.

(** The rank-2 array itself, when [ao] has rank 2. *)
Definition as_matrix (ao : ndarray) : result matrix :=
  match ao with
  | Float64 (Nd2 a) => Ok (F64 a)
  | Complex128 (Nd2 a) => Ok (C128 a)
  | _ => Raise ValueError
  end.

Definition matrix_shape (a : matrix) : nat * nat :=
  match a with
  | F64 d => shape2 d
  | C128 d => shape2 d
  end.

(** The unpacking at the head of [eval_rho] and [eval_mat]:
    [if isgga: ngrids, nao = ao[0].shape  else: ngrids, nao = ao.shape].
    [ao[0]] raises [IndexError] on an empty leading axis, and unpacking a
    shape that has not exactly two entries raises [ValueError]. *)
Definition unpack_shape (isgga : bool) (ao : ndarray) : result (nat * nat) :=
  if isgga then a0 <- component ao 0 ;; Ok (matrix_shape a0)
  else a <- as_matrix ao ;; Ok (matrix_shape a).

(** [ao[0].dtype]: the dtype of the array, once [ao[0]] exists. *)
Definition dtype_of_first (ao : ndarray) : result dtype :=
  match ao with
  | Float64 (Nd2 a) => _ <- getitem a 0 ;; Ok float64
  | Float64 (Nd3 t) => _ <- getitem t 0 ;; Ok float64
  | Complex128 (Nd2 a) => _ <- getitem a 0 ;; Ok complex128
  | Complex128 (Nd3 t) => _ <- getitem t 0 ;; Ok complex128
  end.

(** [for x in l: ...] with a body that may raise. *)
Fixpoint mapM {A B : Type} (f : A -> result B) (l : list A) : result (list B) :=
  match l with
  | [] => Ok []
  | x :: l' => y <- f x ;; ys <- mapM f l' ;; Ok (y :: ys)
  end.

Fixpoint foldM {A B : Type} (f : A -> B -> result A) (l : list B) (a : A) : result A :=
  match l with
  | [] => Ok a
  | x :: l' => a' <- f a x ;; foldM f l' a'
  end.

(** *** Entrywise arithmetic *)

(** [u + v], [u - v] on vectors of shape [(ngrids,)]. *)
Definition vadd (u v : list R) : list R :=
  tabulate (length u) (fun p => nth p u 0 + nth p v 0).
Definition vsub (u v : list R) : list R :=
  tabulate (length u) (fun p => nth p u 0 - nth p v 0).

(** [a + b], [a - b] on real matrices (also the in-place [+=], [-=]). *)
Definition madd (a b : mat R) : mat R :=
  tabulate2 (nrows a) (ncols a) (fun i j => get2 a i j + get2 b i j).
Definition msub (a b : mat R) : mat R :=
  tabulate2 (nrows a) (ncols a) (fun i j => get2 a i j - get2 b i j).

(** [a + 1j*b] for real matrices [a], [b]. *)
Definition complex_of_parts (a b : mat R) : mat C :=
  tabulate2 (nrows a) (ncols a)
    (fun i j => Cadd (RtoC (get2 a i j)) (Cmul Ci (RtoC (get2 b i j)))).

(** [a.T] and [a.conj()] *)
Definition transpose (a : mat C) : mat C :=
  tabulate2 (ncols a) (nrows a) (fun i j => cget2 a j i).
Definition conj (a : mat C) : mat C := map (map Cconj) a.

Definition cmadd (a b : mat C) : mat C :=
  tabulate2 (nrows a) (ncols a) (fun i j => Cadd (cget2 a i j) (cget2 b i j)).

(** [u * v] on vectors of one length and [c * u] for a scalar [c].  (On
    vectors of different lengths numpy broadcasts a length-1 operand and
    refuses the others; the theorems give both operands the grid's
    length.) *)
Definition vmul (u v : list R) : list R :=
  tabulate (length u) (fun p => nth p u 0 * nth p v 0).
Definition vscale (c : R) (u : list R) : list R := map (fun x => c * x) u.
Definition vtimes (u : list R) (c : R) : list R := map (fun x => x * c) u.

(** [a * v.reshape(-1,1)]: row [p] of [a] times [v[p]], for [v] with one
    entry per row of [a]. *)
Definition scale_rows (a : mat R) (v : list R) : mat R :=
  tabulate2 (nrows a) (ncols a) (fun p i => get2 a p i * nth p v 0).

(** [numpy.einsum('pi,pi->p', a, b)] *)
Definition einsum_pi_pi_p (a b : mat R) : list R :=
  tabulate (nrows a) (fun p => sum_n (ncols a) (fun i => get2 a p i * get2 b p i)).

(** ** The cell and the collaborators' data *)

Definition vec3 : Type := (R * R * R)%type.

Record Cell : Type := mkCell {
  nimgs : Z * Z * Z;          (* [cell.nimgs] *)
  h : vec3 * vec3 * vec3;     (* [cell.h], the lattice matrix, by rows *)
  nao_nr : nat;               (* [cell.nao_nr()] *)
  nbas : nat                  (* [mol.nbas] *)
}.

(** The non-zero-shell table, an [int8] array [(grid blocks, shells)]. *)
Definition mask : Type := list (list Z).

(** ** Lattice image set of [eval_ao] (lines 32-36) *)

(** Python's [range(lo, hi)]. *)
Definition range (lo hi : Z) : list Z :=
  map (fun n => (lo + Z.of_nat n)%Z) (seq 0 (Z.to_nat (hi - lo))).

(** [np.dot(nimgs, nimgs)] *)
Definition dot3Z (u v : Z * Z * Z) : Z :=
  let '(u0, u1, u2) := u in
  let '(v0, v1, v2) := v in
  (u0 * v0 + u1 * v1 + u2 * v2)%Z.

(** The filter [i**2+j**2+k**2 <= 1./3*np.dot(nimgs,nimgs)].  Both sides are
    integers up to the factor one third, so in exact arithmetic the test is
    [3 * (i^2+j^2+k^2) <= nimgs . nimgs]; [within_cutoff_real] below relates
    it to the comparison over the reals.  (In double precision the product
    [1./3*N] is [N/3] itself when 3 divides [N], and lies strictly between
    the two neighbouring integers otherwise, so the comparison with an
    integer has the same outcome.) *)
Definition within_cutoff (nimgs : Z * Z * Z) (i j k : Z) : bool :=
  (3 * (i ^ 2 + j ^ 2 + k ^ 2) <=? dot3Z nimgs nimgs)%Z.

(** [Ts = [[i,j,k] for i in range(-nimgs[0],nimgs[0]+1)
                   for j in range(-nimgs[1],nimgs[1]+1)
                   for k in range(-nimgs[2],nimgs[2]+1)
                   if i**2+j**2+k**2 <= 1./3*np.dot(nimgs,nimgs)]] *)
Definition Ts (nimgs : Z * Z * Z) : list (Z * Z * Z) :=
  let '(n0, n1, n2) := nimgs in
  flat_map (fun i =>
    flat_map (fun j =>
      flat_map (fun k =>
        if within_cutoff nimgs i j k then [(i, j, k)] else [])
      (range (- n2) (n2 + 1)))
    (range (- n1) (n1 + 1)))
  (range (- n0) (n0 + 1)).

(** ** [eval_ao] (lines 4-51) *)

Definition dot3 (u v : vec3) : R :=
  let '(u0, u1, u2) := u in
  let '(v0, v1, v2) := v in
  u0 * v0 + u1 * v1 + u2 * v2.

(** [np.dot(cell.h, T)] *)
Definition lattice_vector (hm : vec3 * vec3 * vec3) (T : Z * Z * Z) : vec3 :=
  let '(h0, h1, h2) := hm in
  let '(i, j, k) := T in
  let Tr := (IZR i, IZR j, IZR k) in
  (dot3 h0 Tr, dot3 h1 Tr, dot3 h2 Tr).

(** [coords - L] *)
Definition shift (coords : list vec3) (L : vec3) : list vec3 :=
  let '(l0, l1, l2) := L in
  map (fun c : vec3 => let '(x, y, z) := c in (x - l0, y - l1, z - l2)) coords.

(** [np.zeros([n, m], np.complex128)] *)
Definition zeros2 (n m : nat) : mat C := tabulate2 n m (fun _ _ => C0).

(** [z * a] for a complex scalar [z] and a real array [a]. *)
Definition scale (z : C) (a : nd R) : nd C :=
  match a with
  | Nd2 a => Nd2 (map (map (fun x => Cmul z (RtoC x))) a)
  | Nd3 t => Nd3 (map (map (map (fun x => Cmul z (RtoC x)))) t)
  end.

(** [aoR += y]: the shape of [aoR] is kept; a rank-2 [y] is broadcast
    over the leading axis of a rank-3 [aoR], a rank-3 [y] cannot be added
    into a rank-2 [aoR].  The entries are those of numpy for a [y] of the
    shape of [aoR] (of its components); the value theorems assume that
    shape. *)
Definition iadd (aoR y : nd C) : result (nd C) :=
  match aoR, y with
  | Nd2 a, Nd2 b => Ok (Nd2 (cmadd a b))
  | Nd3 s, Nd3 t => Ok (Nd3 (tabulate (length s) (fun n => cmadd (nth n s []) (nth n t []))))
  | Nd3 s, Nd2 b => Ok (Nd3 (map (fun a => cmadd a b) s))
  | Nd2 _, Nd3 _ => Raise ValueError
  end.

Section Kernels.

(** The collaborators of [pyscf.dft.numint] that the file calls or imports. *)
Variable BLKSIZE : nat.
Variable pyscf_eval_ao :
  Cell -> list vec3 -> bool -> Z -> nat -> option nat -> option mask -> option Z ->
  result (nd R).
Variable pyscf_eval_rho :
  Cell -> ndarray -> matrix -> mask -> bool -> option Z -> result rho_array.
Variable pyscf_eval_mat :
  Cell -> ndarray -> list R -> rho_array -> list R -> option (list R) ->
  option mask -> bool -> option Z -> result matrix.

Definition eval_ao (cell : Cell) (coords : list vec3) (kpt : option vec3)
    (isgga : bool) (relativity : Z) (bastart : nat) (bascount : option nat)
    (non0tab : option mask) (verbose : option Z) : result ndarray :=
  let kpt := match kpt with None => (0, 0, 0) | Some k => k end in
  let nimgs := nimgs cell in
  let Ts := Ts nimgs in
  let nao := nao_nr cell in
  let aoR :=
    if isgga then Nd3 (tabulate 4 (fun _ => zeros2 (length coords) nao))
    else Nd2 (zeros2 (length coords) nao) in
  aoR <- foldM (fun aoR T =>
           let L := lattice_vector (h cell) T in
           ao_T <- pyscf_eval_ao cell (shift coords L) isgga relativity
                     bastart bascount non0tab verbose ;;
           iadd aoR (scale (Cexp (Cmul Ci (RtoC (dot3 kpt L)))) ao_T))
         Ts aoR ;;
  Ok (Complex128 aoR).

(** ** The contraction primitives *)

(** Modelled from the spec: [_dot_ao_dm] is imported from
    [pyscf.dft.numint]; it is the real-arithmetic contraction of an
    [(ngrids, nao)] array against the density matrix, [numpy.dot(ao, dm)].
    The non-zero-shell table only lets it skip shells that vanish in a grid
    block, so it does not enter the value. *)
Definition _dot_ao_dm (mol : Cell) (ao dm : mat R) (nao ngrids : nat)
    (non0tab : mask) : mat R :=
  tabulate2 ngrids (ncols dm)
    (fun p j => sum_n nao (fun i => get2 ao p i * get2 dm i j)).

(** Modelled from the spec: [_dot_ao_ao] is imported from
    [pyscf.dft.numint]; it is the real-arithmetic contraction of two
    [(ngrids, nao)] arrays over the grid, [numpy.dot(ao1.T, ao2)], an
    [(nao, nao)] matrix. *)
Definition _dot_ao_ao (mol : Cell) (ao1 ao2 : mat R) (nao ngrids : nat)
    (non0tab : mask) : mat R :=
  tabulate2 nao nao
    (fun i j => sum_n ngrids (fun p => get2 ao1 p i * get2 ao2 p j)).

(** [if non0tab is None:
       non0tab = numpy.ones(((ngrids+BLKSIZE-1)//BLKSIZE,mol.nbas), dtype=numpy.int8)] *)
Definition default_non0tab (mol : Cell) (ngrids : nat) (non0tab : option mask) : mask :=
  match non0tab with
  | Some t => t
  | None => repeat (repeat 1%Z (nbas mol)) ((ngrids + BLKSIZE - 1) / BLKSIZE)
  end.

(** ** [eval_rho] (lines 53-142) *)

Definition eval_rho (mol : Cell) (ao : ndarray) (dm : matrix)
    (non0tab : option mask) (isgga : bool) (verbose : option Z)
    : result rho_array :=
  '(ngrids, nao) <- unpack_shape isgga ao ;;
  let non0tab := default_non0tab mol ngrids non0tab in
  if true then
    let dm_re := real2 dm in
    let dm_im := imag2 dm in
    if isgga then
      ao0 <- component ao 0 ;;
      let ao_re := real2 ao0 in
      let ao_im := imag2 ao0 in
      let c0_rr := _dot_ao_dm mol ao_re dm_re nao ngrids non0tab in
      let c0_ri := _dot_ao_dm mol ao_im dm_re nao ngrids non0tab in
      let c0_ir := _dot_ao_dm mol ao_re dm_im nao ngrids non0tab in
      let c0_ii := _dot_ao_dm mol ao_im dm_im nao ngrids non0tab in
      let rho0 :=
        vsub (vadd (vadd (einsum_pi_pi_p ao_im c0_ri)
                         (einsum_pi_pi_p ao_re c0_rr))
                   (einsum_pi_pi_p ao_im c0_ir))
             (einsum_pi_pi_p ao_re c0_ii) in
      rows <- mapM (fun i =>
                aoi <- component ao i ;;
                let ao_re := real2 aoi in
                let ao_im := imag2 aoi in
                let c1_rr := _dot_ao_dm mol ao_re dm_re nao ngrids non0tab in
                let c1_ri := _dot_ao_dm mol ao_im dm_re nao ngrids non0tab in
                let c1_ir := _dot_ao_dm mol ao_re dm_im nao ngrids non0tab in
                let c1_ii := _dot_ao_dm mol ao_im dm_im nao ngrids non0tab in
                Ok (vtimes
                      (vsub (vadd (vadd (einsum_pi_pi_p ao_im c1_ri)
                                        (einsum_pi_pi_p ao_re c1_rr))
                                  (einsum_pi_pi_p ao_im c1_ir))
                            (einsum_pi_pi_p ao_re c1_ii))
                      2))
              [1; 2; 3]%nat ;;
      Ok (Rho2 (rho0 :: rows))
    else
      a <- as_matrix ao ;;
      let ao_re := real2 a in
      let ao_im := imag2 a in
      let c0_rr := _dot_ao_dm mol ao_re dm_re nao ngrids non0tab in
      let c0_ri := _dot_ao_dm mol ao_im dm_re nao ngrids non0tab in
      let c0_ir := _dot_ao_dm mol ao_re dm_im nao ngrids non0tab in
      let c0_ii := _dot_ao_dm mol ao_im dm_im nao ngrids non0tab in
      Ok (Rho1 (vsub (vadd (vadd (einsum_pi_pi_p ao_im c0_ri)
                                 (einsum_pi_pi_p ao_re c0_rr))
                           (einsum_pi_pi_p ao_im c0_ir))
                     (einsum_pi_pi_p ao_re c0_ii)))
  else
    pyscf_eval_rho mol ao dm non0tab isgga verbose.

(** ** [eval_mat] (lines 144-221) *)

(** [numpy.einsum('npi,np->pi', ao, wv)] for the rank-3 orbital array and the
    real weights [wv], one row per component of [ao] and one column per
    grid point; the result has the dtype of [ao]. *)
Definition einsum_npi_np_pi (ao : ndarray) (wv : mat R) : result matrix :=
  match ao with
  | Float64 (Nd3 t) =>
      Ok (F64 (tabulate2 (nrows (nth 0 t [])) (ncols (nth 0 t []))
                 (fun p i => sum_n (length t)
                               (fun n => get2 (nth n t []) p i * get2 wv n p))))
  | Complex128 (Nd3 t) =>
      Ok (C128 (tabulate2 (nrows (nth 0 t [])) (ncols (nth 0 t []))
                  (fun p i => Csum_n (length t)
                                (fun n => Cmul (cget3 t n p i) (RtoC (get2 wv n p))))))
  | _ => Raise ValueError
  end.

Definition is_none {T : Type} (o : option T) : bool :=
  match o with None => true | Some _ => false end.

Definition eval_mat (mol : Cell) (ao : ndarray) (weight : list R)
    (rho : rho_array) (vrho : list R) (vsigma : option (list R))
    (non0tab : option mask) (isgga : bool) (verbose : option Z)
    : result matrix :=
  '(ngrids, nao) <- unpack_shape isgga ao ;;
  let non0tab' := default_non0tab mol ngrids non0tab in
  dt <- dtype_of_first ao ;;
  if dtype_eqb dt complex128 then
    '(ao_re, ao_im, aow_re, aow_im) <-
      (if isgga then
         _ <- py_assert (negb (is_none vsigma) && (ndim rho =? 2)%nat) ;;
         match vsigma, rho with
         | Some vsigma, Rho2 rho =>
             _ <- getitem rho 0 ;;
             let wv :=
               tabulate (ncols rho) (fun p => nth p (vtimes (vmul weight vrho) 0.5) 0)
               :: map (fun r =>
                         tabulate (ncols rho)
                           (fun p => nth p r 0 *
                                     nth p (vtimes (vmul weight vsigma) 2) 0))
                      (tl rho) in
             aow <- einsum_npi_np_pi ao wv ;;
             ao0 <- component ao 0 ;;
             let ao_re := real2 ao0 in
             let ao_im := imag2 ao0 in
             let aow_re := real2 aow in
             let aow_im := imag2 aow in
             Ok (ao_re, ao_im, aow_re, aow_im)
         | _, _ => Raise AssertionError
         end
       else
         a <- as_matrix ao ;;
         let ao_re := real2 a in
         let ao_im := imag2 a in
         let aow_re := scale_rows ao_re (vmul (vscale 0.5 weight) vrho) in
         let aow_im := scale_rows ao_im (vmul (vscale 0.5 weight) vrho) in
         Ok (ao_re, ao_im, aow_re, aow_im)) ;;
    let mat_re := _dot_ao_ao mol ao_re aow_re nao ngrids non0tab' in
    let mat_re := madd mat_re (_dot_ao_ao mol ao_im aow_im nao ngrids non0tab') in
    let mat_im := _dot_ao_ao mol ao_re aow_im nao ngrids non0tab' in
    let mat_im := msub mat_im (_dot_ao_ao mol ao_im aow_re nao ngrids non0tab') in
    let mat := complex_of_parts mat_re mat_im in
    Ok (C128 (cmadd mat (conj (transpose mat))))
  else
    pyscf_eval_mat mol ao weight rho vrho None None false None.

End Kernels.

(** ** The k-point adapter, [class _NumInt(pyscf.dft.numint._NumInt)]
    (lines 224-261) *)

Module _NumInt.

(** The instance: the base class keeps no state that the methods below
    read; [__init__] stores [kpt]. *)
Record self : Type := mk { kpt : option vec3 }.

Definition __init__ (kpt : option vec3) : self := mk kpt.

Section Methods.

Variable BLKSIZE : nat.
Variable pyscf_eval_ao :
  Cell -> list vec3 -> bool -> Z -> nat -> option nat -> option mask -> option Z ->
  result (nd R).
Variable pyscf_eval_rho :
  Cell -> ndarray -> matrix -> mask -> bool -> option Z -> result rho_array.
Variable pyscf_eval_mat :
  Cell -> ndarray -> list R -> rho_array -> list R -> option (list R) ->
  option mask -> bool -> option Z -> result matrix.

(** The host driver [pyscf.dft.numint.nr_rks_vxc] and the data it handles. *)
Variables Grids XcId Dms Vxc : Type.
Variable nr_rks_vxc :
  self -> Cell -> Grids -> XcId -> XcId -> Dms -> Z -> Z -> Z -> Z -> option Z ->
  result Vxc.

Definition eval_ao (s : self) (mol : Cell) (coords : list vec3) (isgga : bool)
    (relativity : Z) (bastart : nat) (bascount : option nat)
    (non0tab : option mask) (verbose : option Z) : result ndarray :=
  eval_ao pyscf_eval_ao mol coords (kpt s) isgga relativity bastart
    bascount non0tab verbose.

Definition eval_rho (s : self) (mol : Cell) (ao : ndarray) (dm : matrix)
    (non0tab : option mask) (isgga : bool) (verbose : option Z)
    : result rho_array :=
  eval_rho BLKSIZE pyscf_eval_rho mol ao dm non0tab isgga verbose.

Definition eval_rho2 (s : self) (mol : Cell) (ao : ndarray) (dm : matrix)
    (non0tab : option mask) (isgga : bool) (verbose : option Z)
    : result rho_array :=
  Raise NotImplementedError.

Definition nr_rks (s : self) (mol : Cell) (grids : Grids) (x_id c_id : XcId)
    (dms : Dms) (hermi : Z) (max_memory : Z) (verbose : option Z)
    : result Vxc :=
  nr_rks_vxc s mol grids x_id c_id dms 0%Z 0%Z 1%Z max_memory verbose.

Definition nr_uks (s : self) (mol : Cell) (grids : Grids) (x_id c_id : XcId)
    (dms : Dms) (hermi : Z) (max_memory : Z) (verbose : option Z)
    : result Vxc :=
  Raise NotImplementedError.

Definition eval_mat (s : self) (mol : Cell) (ao : ndarray) (weight : list R)
    (rho : rho_array) (vrho : list R) (vsigma : option (list R))
    (non0tab : option mask) (isgga : bool) (verbose : option Z)
    : result matrix :=
  eval_mat BLKSIZE pyscf_eval_mat mol ao weight rho vrho vsigma non0tab
    isgga verbose.

End Methods.

End _NumInt.

(** ** The molecular potential-matrix routine *)

Section Molecular.

Variable BLKSIZE : nat.

(** [a.T] on a real matrix. *)
Definition transposeR (a : mat R) : mat R :=
  tabulate2 (ncols a) (nrows a) (fun i j => get2 a j i).

(** Modelled from the spec: [pyscf.dft.numint.eval_mat], the "plain
    real-arithmetic potential-matrix routine" of section 4.3, to which
    [eval_mat] delegates for orbitals that are not complex.  It is the same
    algorithm with one real contraction: weighted orbitals (value row scaled
    by [0.5 * weight * vrho], gradient rows by
    [rho[1:] * (weight * vsigma * 2)] in gradient mode, where the same
    assertion guards [vsigma] and [rho]), contracted against the value row,
    and [mat + mat.T] returned. *)
Definition pyscf_dft_eval_mat (mol : Cell) (ao : ndarray) (weight : list R)
    (rho : rho_array) (vrho : list R) (vsigma : option (list R))
    (non0tab : option mask) (isgga : bool) (verbose : option Z)
    : result matrix :=
  '(ngrids, nao) <- unpack_shape isgga ao ;;
  let non0tab' := default_non0tab BLKSIZE mol ngrids non0tab in
  mat <-
    (if isgga then
       _ <- py_assert (negb (is_none vsigma) && (ndim rho =? 2)%nat) ;;
       match vsigma, rho with
       | Some vsigma, Rho2 rho =>
           _ <- getitem rho 0 ;;
           let wv :=
             tabulate (ncols rho) (fun p => nth p (vtimes (vmul weight vrho) 0.5) 0)
             :: map (fun r =>
                       tabulate (ncols rho)
                         (fun p => nth p r 0 *
                                   nth p (vtimes (vmul weight vsigma) 2) 0))
                    (tl rho) in
           aow <- einsum_npi_np_pi ao wv ;;
           ao0 <- component ao 0 ;;
           Ok (_dot_ao_ao mol (real2 ao0) (real2 aow) nao ngrids non0tab')
       | _, _ => Raise AssertionError
       end
     else
       a <- as_matrix ao ;;
       let aow := scale_rows (real2 a) (vmul (vscale 0.5 weight) vrho) in
       Ok (_dot_ao_ao mol (real2 a) aow nao ngrids non0tab')) ;;
  Ok (F64 (madd mat (transposeR mat))).

End Molecular.

(** ** Quantities the specification names *)

(** The partial contraction [C = X . D] at grid point [p], basis index [j]:
    "Crr" for [X = Ar], [D = Dr], "Cri" for [X = Ai], [D = Dr], "Cir" for
    [X = Ar], [D = Di] and "Cii" for [X = Ai], [D = Di]. *)
Definition contraction (X D : mat R) (nao p j : nat) : R :=
  sum_n nao (fun i => get2 X p i * get2 D i j).

(** The per-grid-point inner product "Sum(X (.) Y)". *)
Definition inner (X Y : nat -> nat -> R) (nao p : nat) : R :=
  sum_n nao (fun j => X p j * Y p j).

(** Sum(Ai (.) Cri) + Sum(Ar (.) Crr) + Sum(Ai (.) Cir) - Sum(Ar (.) Cii) *)
Definition four_term (A D : matrix) (nao p : nat) : R :=
  let Ar := real2 A in
  let Ai := imag2 A in
  let Dr := real2 D in
  let Di := imag2 D in
  inner (get2 Ai) (contraction Ai Dr nao) nao p
  + inner (get2 Ar) (contraction Ar Dr nao) nao p
  + inner (get2 Ai) (contraction Ar Di nao) nao p
  - inner (get2 Ar) (contraction Ai Di nao) nao p.

(** Entry [(i, j)] of a rank-2 array of either dtype, as a complex number. *)
Definition entry (a : matrix) (i j : nat) : C :=
  mkC (get2 (real2 a) i j) (get2 (imag2 a) i j).

(** <A_p| D |A_p> = Sum_ij conj(A[p,i]) * D[i,j] * A[p,j] *)
Definition braket (A D : matrix) (nao p : nat) : C :=
  Csum_n nao (fun i => Csum_n nao (fun j =>
    Cmul (Cmul (Cconj (entry A p i)) (entry D i j)) (entry A p j))).

(** Sum_ij A[p,i] * D[i,j] * conj(A[p,j]), which is
    <conj(A_p)| D |conj(A_p)>. *)
Definition braket_conj (A D : matrix) (nao p : nat) : C :=
  Csum_n nao (fun i => Csum_n nao (fun j =>
    Cmul (Cmul (entry A p i) (entry D i j)) (Cconj (entry A p j)))).

(** The contraction [D |X_p>] at basis index [i], the reading "DM * ket" of
    the comments in [eval_rho]: [D] applied to the column of orbital values
    at grid point [p]. *)
Definition ket_contraction (X D : mat R) (nao p i : nat) : R :=
  sum_n nao (fun j => get2 D i j * get2 X p j).

(** The weighted overlap-like matrix Sum_p w_p * conj(A_p) A_p^T, entry
    [(i, j)]. *)
Definition weighted_overlap (A : mat C) (w : list R) (ngrids i j : nat) : C :=
  Csum_n ngrids (fun p =>
    Cmul (RtoC (nth p w 0)) (Cmul (Cconj (cget2 A p i)) (cget2 A p j))).

(** The sum-of-squares criterion of the lattice image set, over the reals. *)
Definition sum_sq_criterion (nimgs : Z * Z * Z) (i j k : Z) : Prop :=
  IZR (i ^ 2 + j ^ 2 + k ^ 2) <= 1 / 3 * IZR (dot3Z nimgs nimgs).

(** The box that the three [range]s of the comprehension span. *)
Definition in_box (nimgs : Z * Z * Z) (i j k : Z) : Prop :=
  let '(n0, n1, n2) := nimgs in
  (- n0 <= i <= n0 /\ - n1 <= j <= n1 /\ - n2 <= k <= n2)%Z.

(** ** Shapes *)

(** [a] is a rectangular array of shape [(n, m)]. *)
Definition rect {T : Type} (n m : nat) (a : mat T) : Prop :=
  length a = n /\ Forall (fun r => length r = m) a.

(** The output of the molecular AO evaluator has the shape the periodic
    evaluator allocates: [(ngrids, nao)], or [(4, ngrids, nao)] in gradient
    mode. *)
Definition ao_shaped (isgga : bool) (ngrids nao : nat) (d : nd R) : Prop :=
  match d with
  | Nd2 a => isgga = false /\ rect ngrids nao a
  | Nd3 t => isgga = true /\ length t = 4%nat /\ Forall (rect ngrids nao) t
  end.

(** M = M^H, entry by entry. *)
Definition hermitian (M : mat C) : Prop :=
  forall i j, cget2 M i j = Cconj (cget2 M j i).


(** ** Sample inputs *)

Definition sample_cell : Cell :=
  mkCell (0, 0, 0)%Z ((1, 0, 0), (0, 1, 0), (0, 0, 1)) 2 2.

(** Collaborators that refuse every call. *)
Definition no_eval_rho (mol : Cell) (ao : ndarray) (dm : matrix) (non0tab : mask)
    (isgga : bool) (verbose : option Z) : result rho_array :=
  Raise NotImplementedError.

Definition no_eval_mat (mol : Cell) (ao : ndarray) (weight : list R)
    (rho : rho_array) (vrho : list R) (vsigma : option (list R))
    (non0tab : option mask) (isgga : bool) (verbose : option Z) : result matrix :=
  Raise NotImplementedError.

(** One grid point, two basis functions, orbital values (1, i). *)
Definition sample_ao : mat C := [[mkC 1 0; mkC 0 1]].

(** The Hermitian density matrix [[0, i], [-i, 0]]. *)
Definition sample_dm : matrix := C128 [[mkC 0 0; mkC 0 1]; [mkC 0 (-1); mkC 0 0]].

(** A gradient-mode orbital array of shape (4, 1, 2). *)
Definition sample_ao3 : list (mat C) :=
  [[[mkC 1 0; mkC 0 1]]; [[mkC 0 1; mkC 1 0]];
   [[mkC 1 1; mkC 0 0]]; [[mkC 0 0; mkC 2 0]]].

(** A real-valued gradient-mode orbital array of shape (4, 1, 1). *)
Definition sample_real_ao3 : ndarray :=
  Float64 (Nd3 [[[1]]; [[1]]; [[1]]; [[1]]]).

(** A molecular AO evaluator for the samples: the values (1, 2) at every
    grid point, in value-only mode. *)
Definition sample_eval_ao (cell : Cell) (coords : list vec3) (isgga : bool)
    (relativity : Z) (bastart : nat) (bascount : option nat)
    (non0tab : option mask) (verbose : option Z) : result (nd R) :=
  Ok (Nd2 (map (fun _ => [1; 2]) coords)).

(** ** Further quantities and shapes *)

(** The collaborators' signatures. *)
Definition ao_evaluator : Type :=
  Cell -> list vec3 -> bool -> Z -> nat -> option nat -> option mask -> option Z ->
  result (nd R).

Definition rho_evaluator : Type :=
  Cell -> ndarray -> matrix -> mask -> bool -> option Z -> result rho_array.

Definition mat_evaluator : Type :=
  Cell -> ndarray -> list R -> rho_array -> list R -> option (list R) ->
  option mask -> bool -> option Z -> result matrix.

(** The Bloch phase exp(i k.L) of the image [T], with L = h.T. *)
Definition bloch_phase (cell : Cell) (k : vec3) (T : Z * Z * Z) : C :=
  Cexp (Cmul Ci (RtoC (dot3 k (lattice_vector (h cell) T)))).

(** The phase-weighted sum over the images of entry (p, i) of the arrays
    [a T], in the order of the enumeration. *)
Definition bloch_sum (cell : Cell) (k : vec3) (a : Z * Z * Z -> mat R)
    (p i : nat) : C :=
  fold_left (fun acc T => Cadd acc (Cmul (bloch_phase cell k T) (RtoC (get2 (a T) p i))))
    (Ts (nimgs cell)) C0.

(** The plain sum over the images. *)
Definition image_sum (cell : Cell) (a : Z * Z * Z -> mat R) (p i : nat) : R :=
  fold_left (fun acc T => acc + get2 (a T) p i) (Ts (nimgs cell)) 0.

(** The buffer [eval_ao] starts from. *)
Definition zero_ao (isgga : bool) (ngrids nao : nat) : nd C :=
  if isgga then Nd3 (tabulate 4 (fun _ => zeros2 ngrids nao))
  else Nd2 (zeros2 ngrids nao).

(** An array of the shape that goes with the mode: (ngrids, nao), or
    (4, ngrids, nao) in gradient mode. *)
Definition nd_shaped {T : Type} (isgga : bool) (ngrids nao : nat) (d : nd T) : Prop :=
  match d with
  | Nd2 a => isgga = false /\ rect ngrids nao a
  | Nd3 t => isgga = true /\ length t = 4%nat /\ Forall (rect ngrids nao) t
  end.

(** [D] is Hermitian on the basis indices below [n]. *)
Definition hermitian_on (n : nat) (D : matrix) : Prop :=
  forall i j, (i < n)%nat -> (j < n)%nat -> entry D i j = Cconj (entry D j i).

(** [ao.ndim] and [ao.shape[0]] of an orbital array. *)
Definition ao_rank (ao : ndarray) : nat :=
  match ao with
  | Float64 (Nd2 _) | Complex128 (Nd2 _) => 2
  | Float64 (Nd3 _) | Complex128 (Nd3 _) => 3
  end.

Definition leading_length (ao : ndarray) : nat :=
  match ao with
  | Float64 (Nd2 a) => length a
  | Float64 (Nd3 t) => length t
  | Complex128 (Nd2 a) => length a
  | Complex128 (Nd3 t) => length t
  end.

(** *** Further sample inputs *)

(** A cubic cell with one image in each direction, and a cell with a
    negative image count. *)
Definition sample_cell_images : Cell :=
  mkCell (1, 1, 1)%Z ((1, 0, 0), (0, 1, 0), (0, 0, 1)) 2 2.

Definition sample_cell_negative : Cell :=
  mkCell (-1, 0, 0)%Z ((1, 0, 0), (0, 1, 0), (0, 0, 1)) 2 2.

(** A molecular AO evaluator that refuses every call. *)
Definition no_eval_ao (cell : Cell) (coords : list vec3) (isgga : bool)
    (relativity : Z) (bastart : nat) (bascount : option nat)
    (non0tab : option mask) (verbose : option Z) : result (nd R) :=
  Raise NotImplementedError.

(** What [sample_eval_ao] returns for the image [T] of [sample_cell_images]
    on the single grid point at the origin. *)
Definition sample_images (T : Z * Z * Z) : mat R :=
  map (fun _ => [1; 2])
    (shift [(0, 0, 0)] (lattice_vector (h sample_cell_images) T)).

(** Two complex matrices over two basis functions. *)
Definition sample_d1 : mat C := [[mkC 0 0; mkC 0 1]; [mkC 0 (-1); mkC 0 0]].
Definition sample_d2 : mat C := [[mkC 1 0; mkC 2 1]; [mkC 0 3; mkC 1 1]].

(** * Properties *)

Unset Implicit Arguments.

(** ** Index sums *)

Lemma sum_n_ext (n : nat) (f g : nat -> R) :
  (forall k, (k < n)%nat -> f k = g k) -> sum_n n f = sum_n n g.
Proof.
  induction n as [|n IH]; intros H; simpl; [reflexivity|].
  rewrite IH by (intros k Hk; apply H; lia).
  rewrite (H n) by lia. reflexivity.
Qed.

Lemma sum_n_plus (n : nat) (f g : nat -> R) :
  sum_n n (fun k => f k + g k) = sum_n n f + sum_n n g.
Proof. induction n as [|n IH]; simpl; [|rewrite IH]; ring. Qed.

Lemma sum_n_minus (n : nat) (f g : nat -> R) :
  sum_n n (fun k => f k - g k) = sum_n n f - sum_n n g.
Proof. induction n as [|n IH]; simpl; [|rewrite IH]; ring. Qed.

Lemma sum_n_scal_l (n : nat) (c : R) (f : nat -> R) :
  sum_n n (fun k => c * f k) = c * sum_n n f.
Proof. induction n as [|n IH]; simpl; [|rewrite IH]; ring. Qed.

Lemma sum_n_zero (n : nat) : sum_n n (fun _ => 0) = 0.
Proof. induction n as [|n IH]; simpl; [|rewrite IH]; ring. Qed.

Lemma sum_n_swap (n m : nat) (f : nat -> nat -> R) :
  sum_n n (fun i => sum_n m (fun j => f i j)) =
  sum_n m (fun j => sum_n n (fun i => f i j)).
Proof.
  induction n as [|n IH]; simpl.
  - symmetry. apply sum_n_zero.
  - rewrite IH, <- sum_n_plus. reflexivity.
Qed.

(** ** Tabulated arrays *)

Lemma length_tabulate {T : Type} (n : nat) (f : nat -> T) :
  length (tabulate n f) = n.
Proof. unfold tabulate. now rewrite length_map, length_seq. Qed.

Lemma nth_tabulate {T : Type} (n : nat) (f : nat -> T) (d : T) (i : nat) :
  (i < n)%nat -> nth i (tabulate n f) d = f i.
Proof.
  intros Hi. unfold tabulate.
  rewrite (nth_indep _ d (f 0%nat)) by (now rewrite length_map, length_seq).
  rewrite map_nth, seq_nth by assumption. reflexivity.
Qed.

Lemma tabulate_ext {T : Type} (n : nat) (f g : nat -> T) :
  (forall i, (i < n)%nat -> f i = g i) -> tabulate n f = tabulate n g.
Proof.
  intros H. unfold tabulate. apply map_ext_in.
  intros i Hi. apply in_seq in Hi. apply H. lia.
Qed.

Lemma tabulate_nth {T : Type} (d : T) (l : list T) :
  tabulate (length l) (fun i => nth i l d) = l.
Proof.
  apply (nth_ext _ _ d d).
  - apply length_tabulate.
  - intros i Hi. rewrite length_tabulate in Hi.
    rewrite nth_tabulate by assumption. reflexivity.
Qed.

Lemma tabulate2_ext {T : Type} (n m : nat) (f g : nat -> nat -> T) :
  (forall p i, (p < n)%nat -> (i < m)%nat -> f p i = g p i) ->
  tabulate2 n m f = tabulate2 n m g.
Proof.
  intros H. unfold tabulate2. apply tabulate_ext. intros p Hp.
  apply tabulate_ext. intros i Hi. now apply H.
Qed.

Lemma rect_tabulate2 {T : Type} (n m : nat) (f : nat -> nat -> T) :
  rect n m (tabulate2 n m f).
Proof.
  split.
  - apply length_tabulate.
  - unfold tabulate2, tabulate. apply Forall_forall. intros r Hr.
    apply in_map_iff in Hr. destruct Hr as [p [<- _]].
    now rewrite length_map, length_seq.
Qed.

Lemma rect_nrows {T : Type} (n m : nat) (a : mat T) : rect n m a -> nrows a = n.
Proof. now intros [H _]. Qed.

Lemma rect_ncols {T : Type} (n m : nat) (a : mat T) :
  rect n m a -> (0 < n)%nat -> ncols a = m.
Proof.
  intros [Hn Hf] Hpos. unfold ncols. destruct a as [|r a]; simpl in *; [lia|].
  now inversion Hf.
Qed.

(** A square array has as many columns as rows, also when it is empty. *)
Lemma rect_square_ncols {T : Type} (n : nat) (a : mat T) : rect n n a -> ncols a = n.
Proof.
  intros H. destruct n as [|n].
  - destruct H as [Hn _]. destruct a; [reflexivity|discriminate].
  - apply (rect_ncols (S n) (S n) a H). lia.
Qed.

Lemma get2_tabulate2 (n m : nat) (f : nat -> nat -> R) (p i : nat) :
  (p < n)%nat -> (i < m)%nat -> get2 (tabulate2 n m f) p i = f p i.
Proof.
  intros Hp Hi. unfold get2, tabulate2.
  rewrite nth_tabulate by assumption.
  rewrite nth_tabulate by assumption. reflexivity.
Qed.

Lemma cget2_tabulate2 (n m : nat) (f : nat -> nat -> C) (p i : nat) :
  (p < n)%nat -> (i < m)%nat -> cget2 (tabulate2 n m f) p i = f p i.
Proof.
  intros Hp Hi. unfold cget2, tabulate2.
  rewrite nth_tabulate by assumption.
  rewrite nth_tabulate by assumption. reflexivity.
Qed.

Lemma cget2_out (n m : nat) (a : mat C) (p i : nat) :
  rect n m a -> (n <= p)%nat \/ (m <= i)%nat -> cget2 a p i = C0.
Proof.
  intros [Hn Hf] H. unfold cget2.
  destruct (Nat.lt_ge_cases p n) as [Hp|Hp].
  - destruct H as [H|H]; [lia|].
    apply nth_overflow.
    rewrite Forall_forall in Hf. rewrite (Hf (nth p a [])); [assumption|].
    apply nth_In. lia.
  - rewrite (nth_overflow a) by lia. now destruct i.
Qed.

Lemma nth_map_map {A B : Type} (f : A -> B) (a : mat A) (d : A) (p i : nat) :
  nth i (nth p (map (map f) a) []) (f d) = f (nth i (nth p a []) d).
Proof.
  change (@nil B) with (map f []). rewrite map_nth. apply map_nth.
Qed.

Lemma get2_real (a : mat C) (p i : nat) :
  get2 (map (map Re) a) p i = Re (cget2 a p i).
Proof. unfold get2, cget2. apply (nth_map_map Re a C0). Qed.

Lemma get2_imag (a : mat C) (p i : nat) :
  get2 (map (map Im) a) p i = Im (cget2 a p i).
Proof. unfold get2, cget2. apply (nth_map_map Im a C0). Qed.

Lemma nrows_map {A B : Type} (f : list A -> list B) (a : mat A) :
  nrows (map f a) = nrows a.
Proof. apply length_map. Qed.

Lemma ncols_map_map {A B : Type} (f : A -> B) (a : mat A) :
  ncols (map (map f) a) = ncols a.
Proof. unfold ncols. destruct a; simpl; [reflexivity|apply length_map]. Qed.

Lemma shape_real2 (a : matrix) : shape2 (real2 a) = matrix_shape a.
Proof.
  destruct a; simpl; [reflexivity|].
  unfold shape2. now rewrite nrows_map, ncols_map_map.
Qed.

Lemma shape_imag2 (a : matrix) : shape2 (imag2 a) = matrix_shape a.
Proof.
  destruct a; simpl; unfold shape2; now rewrite nrows_map, ncols_map_map.
Qed.

Lemma nth_vmul (u v : list R) (p : nat) :
  nth p (vmul u v) 0 = nth p u 0 * nth p v 0.
Proof.
  unfold vmul. destruct (Nat.lt_ge_cases p (length u)) as [Hp|Hp].
  - rewrite nth_tabulate by assumption. reflexivity.
  - rewrite (nth_overflow (tabulate _ _)) by (rewrite length_tabulate; lia).
    rewrite (nth_overflow u) by lia. ring.
Qed.

Lemma nth_vscale (c : R) (u : list R) (p : nat) :
  nth p (vscale c u) 0 = c * nth p u 0.
Proof.
  unfold vscale. replace 0 with (c * 0) at 1 by ring.
  apply (map_nth (fun x => c * x)).
Qed.


(** ** The lattice image set *)

Lemma in_range (lo hi x : Z) : In x (range lo hi) <-> (lo <= x < hi)%Z.
Proof.
  unfold range. rewrite in_map_iff. split.
  - intros [n [<- Hn]]. apply in_seq in Hn. lia.
  - intros Hx. exists (Z.to_nat (x - lo)). split; [lia|].
    apply in_seq. lia.
Qed.

(** The integer test of the model is the comparison of the source, read
    over the reals. *)
Lemma within_cutoff_real (nimgs : Z * Z * Z) (i j k : Z) :
  within_cutoff nimgs i j k = true <-> sum_sq_criterion nimgs i j k.
Proof.
  unfold within_cutoff, sum_sq_criterion.
  rewrite Z.leb_le. split.
  - intros H. apply IZR_le in H. rewrite mult_IZR in H. lra.
  - intros H. apply le_IZR. rewrite mult_IZR. lra.
Qed.

Lemma in_Ts (nimgs : Z * Z * Z) (i j k : Z) :
  In (i, j, k) (Ts nimgs) <->
  in_box nimgs i j k /\ within_cutoff nimgs i j k = true.
Proof.
  destruct nimgs as [[n0 n1] n2]. unfold Ts, in_box.
  rewrite in_flat_map. split.
  - intros [i' [Hi H]]. apply in_flat_map in H. destruct H as [j' [Hj H]].
    apply in_flat_map in H. destruct H as [k' [Hk H]].
    apply in_range in Hi, Hj, Hk.
    destruct (within_cutoff (n0, n1, n2) i' j' k') eqn:E; simpl in H;
      [destruct H as [H|[]]|destruct H].
    inversion H; subst. repeat split; try lia. exact E.
  - intros [[Hi [Hj Hk]] E]. exists i. split; [apply in_range; lia|].
    apply in_flat_map. exists j. split; [apply in_range; lia|].
    apply in_flat_map. exists k. split; [apply in_range; lia|].
    rewrite E. left. reflexivity.
Qed.

(** C3 (as stated) fails: for the image counts (0, 0, 3) the triplet
    (1, 1, 1) satisfies the sum-of-squares criterion, 3 <= 9/3, and is not
    enumerated, because [i] and [j] only range over [range(0, 1)]. *)
Lemma Ts_criterion_alone_fails :
  sum_sq_criterion (0, 0, 3)%Z 1 1 1 /\ ~ In (1, 1, 1)%Z (Ts (0, 0, 3)%Z).
Proof.
  split.
  - apply within_cutoff_real. reflexivity.
  - rewrite in_Ts. unfold in_box. lia.
Qed.

(** C3 (amended): the enumerated image set is the set of the integer
    triplets (i, j, k) with |i| <= nimgs[0], |j| <= nimgs[1],
    |k| <= nimgs[2] that satisfy i^2+j^2+k^2 <= (1/3) (nimgs . nimgs). *)
Theorem Ts_membership (nimgs : Z * Z * Z) (i j k : Z) :
  In (i, j, k) (Ts nimgs) <->
  in_box nimgs i j k /\ sum_sq_criterion nimgs i j k.
Proof. rewrite in_Ts, within_cutoff_real. reflexivity. Qed.

(** X4: when the three image counts are equal (and not negative) the
    criterion implies the box, and decides membership alone. *)
Lemma Ts_isotropic (n i j k : Z) :
  (0 <= n)%Z ->
  (In (i, j, k) (Ts (n, n, n)) <-> sum_sq_criterion (n, n, n) i j k).
Proof.
  intros Hn. rewrite in_Ts, within_cutoff_real. split; [tauto|].
  intros H. split; [|exact H].
  apply within_cutoff_real in H. unfold within_cutoff in H.
  apply Z.leb_le in H. unfold dot3Z in H. rewrite !Z.pow_2_r in H.
  unfold in_box.
  assert (Hi : (i * i <= n * n)%Z) by nia.
  assert (Hj : (j * j <= n * n)%Z) by nia.
  assert (Hk : (k * k <= n * n)%Z) by nia.
  repeat split; nia.
Qed.

(** A cell without periodic images: only the zero translation. *)
Lemma Ts_zero : Ts (0, 0, 0)%Z = [(0, 0, 0)%Z].
Proof. reflexivity. Qed.

(** ** The k-point adapter *)

(** C9: [eval_rho2] and [nr_uks] raise [NotImplementedError] for every
    input, whatever the collaborators are: neither returns a value nor
    reaches another routine. *)
Theorem unimplemented_paths_raise :
  (forall s mol ao dm non0tab isgga verbose,
     _NumInt.eval_rho2 s mol ao dm non0tab isgga verbose
     = Raise NotImplementedError) /\
  (forall (Grids XcId Dms Vxc : Type) s mol (grids : Grids) (x_id c_id : XcId)
          (dms : Dms) hermi max_memory verbose,
     @_NumInt.nr_uks Grids XcId Dms Vxc s mol grids x_id c_id dms hermi
       max_memory verbose
     = Raise NotImplementedError).
Proof. split; reflexivity. Qed.

(** ** The density evaluator *)

Lemma length_vadd (u v : list R) : length (vadd u v) = length u.
Proof. apply length_tabulate. Qed.

Lemma nth_vadd (u v : list R) (p : nat) :
  (p < length u)%nat -> nth p (vadd u v) 0 = nth p u 0 + nth p v 0.
Proof.
  intros Hp. unfold vadd. rewrite nth_tabulate by assumption. reflexivity.
Qed.

Lemma length_einsum (a b : mat R) : length (einsum_pi_pi_p a b) = nrows a.
Proof. apply length_tabulate. Qed.

Lemma nth_einsum (a b : mat R) (p : nat) :
  (p < nrows a)%nat ->
  nth p (einsum_pi_pi_p a b) 0 = sum_n (ncols a) (fun i => get2 a p i * get2 b p i).
Proof.
  intros Hp. unfold einsum_pi_pi_p. rewrite nth_tabulate by assumption.
  reflexivity.
Qed.

Lemma get2_dot_ao_dm (mol : Cell) (ao dm : mat R) (nao ngrids : nat)
    (non0tab : mask) (p j : nat) :
  (p < ngrids)%nat -> (j < ncols dm)%nat ->
  get2 (_dot_ao_dm mol ao dm nao ngrids non0tab) p j = contraction ao dm nao p j.
Proof.
  intros Hp Hj. unfold _dot_ao_dm. rewrite get2_tabulate2 by assumption.
  reflexivity.
Qed.

(** The combination of the four contractions that [eval_rho] forms for one
    component of the orbital array. *)
Lemma four_term_row (mol : Cell) (A D : matrix) (nao ngrids : nat) (non0tab : mask) :
  matrix_shape A = (ngrids, nao) ->
  snd (matrix_shape D) = nao ->
  vsub (vadd (vadd
          (einsum_pi_pi_p (imag2 A)
             (_dot_ao_dm mol (imag2 A) (real2 D) nao ngrids non0tab))
          (einsum_pi_pi_p (real2 A)
             (_dot_ao_dm mol (real2 A) (real2 D) nao ngrids non0tab)))
          (einsum_pi_pi_p (imag2 A)
             (_dot_ao_dm mol (real2 A) (imag2 D) nao ngrids non0tab)))
       (einsum_pi_pi_p (real2 A)
          (_dot_ao_dm mol (imag2 A) (imag2 D) nao ngrids non0tab))
  = tabulate ngrids (four_term A D nao).
Proof.
  intros HA HD.
  pose proof (shape_real2 A) as Hr. pose proof (shape_imag2 A) as Hi.
  rewrite HA in Hr, Hi. unfold shape2 in Hr, Hi.
  injection Hr as Hrn Hrc. injection Hi as Hin Hic.
  pose proof (shape_real2 D) as HDr. pose proof (shape_imag2 D) as HDi.
  rewrite <- HDr in HD at 1. simpl in HD.
  assert (HD' : ncols (imag2 D) = nao).
  { rewrite <- HDi in HDr. unfold shape2 in HDr. injection HDr as _ E. congruence. }
  unfold vsub. rewrite !length_vadd, length_einsum, Hin.
  apply tabulate_ext. intros p Hp.
  rewrite !nth_vadd by (rewrite ?length_vadd, length_einsum; lia).
  rewrite !nth_einsum by lia.
  rewrite Hrc, Hic. unfold four_term, inner.
  repeat (f_equal; try (apply sum_n_ext; intros j Hj;
    rewrite get2_dot_ao_dm by lia; reflexivity)).
Qed.

(** The four-term combination is the real part of
    Sum_ij A[p,i] D[i,j] conj(A[p,j]). *)
Lemma four_term_braket_conj (A D : matrix) (nao p : nat) :
  four_term A D nao p = Re (braket_conj A D nao p).
Proof.
  unfold four_term, inner, contraction, braket_conj. cbn [Re Csum_n].
  rewrite (sum_n_swap nao nao).
  rewrite <- !sum_n_plus, <- sum_n_minus.
  apply sum_n_ext. intros j _.
  rewrite <- !sum_n_scal_l, <- !sum_n_plus, <- sum_n_minus.
  apply sum_n_ext. intros i _.
  unfold entry. cbn. ring.
Qed.

(** The real part of <A_p| D |A_p> is the same combination formed with
    the contractions [D |X_p>] in place of [X_p . D]: the two agree when
    [D] is contracted on its other index. *)
Lemma ket_four_term_braket (A D : matrix) (nao p : nat) :
  inner (get2 (imag2 A)) (ket_contraction (imag2 A) (real2 D) nao) nao p
  + inner (get2 (real2 A)) (ket_contraction (real2 A) (real2 D) nao) nao p
  + inner (get2 (imag2 A)) (ket_contraction (real2 A) (imag2 D) nao) nao p
  - inner (get2 (real2 A)) (ket_contraction (imag2 A) (imag2 D) nao) nao p
  = Re (braket A D nao p).
Proof.
  unfold inner, ket_contraction, braket. cbn [Re Csum_n].
  rewrite <- !sum_n_plus, <- sum_n_minus.
  apply sum_n_ext. intros i _.
  rewrite <- !sum_n_scal_l, <- !sum_n_plus, <- sum_n_minus.
  apply sum_n_ext. intros j _.
  unfold entry. cbn. ring.
Qed.

Lemma vtimes_tabulate (n : nat) (f : nat -> R) (c : R) :
  vtimes (tabulate n f) c = tabulate n (fun p => f p * c).
Proof. unfold vtimes, tabulate. apply map_map. Qed.

(** C1 (amended): in value-only mode, for every complex orbital array [A]
    and every density matrix [D] over the basis (real or complex, Hermitian
    or not), [eval_rho] returns at each grid point p the four-term real
    combination Sum(Ai.Cri) + Sum(Ar.Crr) + Sum(Ai.Cir) - Sum(Ar.Cii), a
    real array, and this value is the real part of
    Sum_ij A[p,i] D[i,j] conj(A[p,j]) = <conj(A_p)| D |conj(A_p)>. *)
Theorem eval_rho_four_term (BLKSIZE : nat)
    (pyscf_eval_rho : Cell -> ndarray -> matrix -> mask -> bool -> option Z ->
                      result rho_array)
    (mol : Cell) (A : mat C) (D : matrix) (non0tab : option mask)
    (verbose : option Z) :
  matrix_shape D = (ncols A, ncols A) ->
  eval_rho BLKSIZE pyscf_eval_rho mol (Complex128 (Nd2 A)) D non0tab false
    verbose
  = Ok (Rho1 (tabulate (nrows A) (four_term (C128 A) D (ncols A)))) /\
  forall p, four_term (C128 A) D (ncols A) p
            = Re (braket_conj (C128 A) D (ncols A) p).
Proof.
  intros HD. split; [|intros p; apply four_term_braket_conj].
  unfold eval_rho, unpack_shape. cbn [as_matrix bind matrix_shape shape2].
  rewrite four_term_row; [reflexivity|reflexivity|now rewrite HD].
Qed.

Lemma eval_rho_four_term_witness :
  matrix_shape sample_dm = (ncols sample_ao, ncols sample_ao) /\
  eval_rho 96 no_eval_rho sample_cell (Complex128 (Nd2 sample_ao)) sample_dm
    None false None
  = Ok (Rho1 (tabulate (nrows sample_ao)
                (four_term (C128 sample_ao) sample_dm (ncols sample_ao)))).
Proof.
  split; [reflexivity|].
  apply (eval_rho_four_term 96 no_eval_rho sample_cell sample_ao sample_dm
           None None).
  reflexivity.
Defined.

(** C1 (as stated) fails: for the orbital values (1, i) at one grid point
    and the Hermitian density matrix [[0, i], [-i, 0]], [eval_rho] returns
    2 while the real part of <A_p| D |A_p> is -2. *)
Lemma eval_rho_not_braket :
  exists v,
    eval_rho 96 no_eval_rho sample_cell (Complex128 (Nd2 sample_ao)) sample_dm
      None false None = Ok (Rho1 [v]) /\
    v = 2 /\
    Re (braket (C128 sample_ao) sample_dm 2 0) = -2 /\
    v <> Re (braket (C128 sample_ao) sample_dm 2 0).
Proof.
  eexists. split; [reflexivity|].
  assert (H1 : Re (braket (C128 sample_ao) sample_dm 2 0) = -2) by (cbn; ring).
  rewrite H1. cbn. repeat split; lra.
Qed.

(** C7: in gradient mode, row 0 of the density is the four-term
    combination of the value row [ao[0]], and row i, for i = 1, 2, 3, is
    the same combination formed with [ao[i]] in place of [ao[0]], times 2;
    the factor 2 is on the gradient rows only. *)
Theorem eval_rho_gradient_rows (BLKSIZE : nat)
    (pyscf_eval_rho : Cell -> ndarray -> matrix -> mask -> bool -> option Z ->
                      result rho_array)
    (mol : Cell) (a0 a1 a2 a3 : mat C) (D : matrix) (non0tab : option mask)
    (verbose : option Z) :
  shape2 a1 = shape2 a0 -> shape2 a2 = shape2 a0 -> shape2 a3 = shape2 a0 ->
  matrix_shape D = (ncols a0, ncols a0) ->
  eval_rho BLKSIZE pyscf_eval_rho mol (Complex128 (Nd3 [a0; a1; a2; a3])) D
    non0tab true verbose
  = Ok (Rho2
          [tabulate (nrows a0) (four_term (C128 a0) D (ncols a0));
           tabulate (nrows a0) (fun p => four_term (C128 a1) D (ncols a0) p * 2);
           tabulate (nrows a0) (fun p => four_term (C128 a2) D (ncols a0) p * 2);
           tabulate (nrows a0) (fun p => four_term (C128 a3) D (ncols a0) p * 2)]).
Proof.
  intros H1 H2 H3 HD.
  assert (HD' : snd (matrix_shape D) = ncols a0) by now rewrite HD.
  unfold eval_rho, unpack_shape.
  cbn [component getitem nth_error bind mapM matrix_shape shape2].
  rewrite !four_term_row by (assumption || reflexivity).
  rewrite !vtimes_tabulate. reflexivity.
Qed.

Lemma eval_rho_gradient_rows_witness :
  eval_rho 96 no_eval_rho sample_cell (Complex128 (Nd3 sample_ao3)) sample_dm
    None true None
  = Ok (Rho2
          [tabulate 1 (four_term (C128 [[mkC 1 0; mkC 0 1]]) sample_dm 2);
           tabulate 1 (fun p => four_term (C128 [[mkC 0 1; mkC 1 0]]) sample_dm 2 p * 2);
           tabulate 1 (fun p => four_term (C128 [[mkC 1 1; mkC 0 0]]) sample_dm 2 p * 2);
           tabulate 1 (fun p => four_term (C128 [[mkC 0 0; mkC 2 0]]) sample_dm 2 p * 2)]).
Proof.
  apply (eval_rho_gradient_rows 96 no_eval_rho sample_cell
           [[mkC 1 0; mkC 0 1]] [[mkC 0 1; mkC 1 0]]
           [[mkC 1 1; mkC 0 0]] [[mkC 0 0; mkC 2 0]] sample_dm None None);
    reflexivity.
Defined.

(** The rows of the sample: 2 for the value row; the gradient rows carry
    the factor 2. *)
Example eval_rho_gradient_sample :
  exists r0 r1 r2 r3,
    eval_rho 96 no_eval_rho sample_cell (Complex128 (Nd3 sample_ao3)) sample_dm
      None true None = Ok (Rho2 [[r0]; [r1]; [r2]; [r3]]) /\
    r0 = 2 /\ r1 = -4 /\ r2 = 0 /\ r3 = 0.
Proof.
  do 4 eexists. split; [reflexivity|]. cbn. repeat split; lra.
Qed.

Lemma real_astype (a : mat R) : map (map Re) (map (map RtoC) a) = a.
Proof.
  rewrite map_map. rewrite <- (map_id a) at 2. apply map_ext.
  intros r. rewrite map_map. apply map_id.
Qed.

Lemma imag_astype (a : mat R) :
  map (map Im) (map (map RtoC) a) = map (map (fun _ => 0)) a.
Proof.
  rewrite map_map. apply map_ext. intros r. now rewrite map_map.
Qed.

Ltac astype_norm :=
  cbn [bind real2 imag2 matrix_shape option_map]; unfold shape2;
  rewrite ?real_astype, ?imag_astype, ?nrows_map, ?ncols_map_map.

(** A real-valued orbital array is treated as the complex array with zero
    imaginary part. *)
Lemma eval_rho_real_as_complex (BLKSIZE : nat)
    (pyscf_eval_rho : Cell -> ndarray -> matrix -> mask -> bool -> option Z ->
                      result rho_array)
    (mol : Cell) (d : nd R) (dm : matrix) (non0tab : option mask)
    (isgga : bool) (verbose : option Z) :
  eval_rho BLKSIZE pyscf_eval_rho mol (Float64 d) dm non0tab isgga verbose
  = eval_rho BLKSIZE pyscf_eval_rho mol (Complex128 (astype_complex d)) dm
      non0tab isgga verbose.
Proof.
  unfold eval_rho, unpack_shape.
  destruct d as [a|t]; destruct isgga;
    cbn [mapM astype_complex component as_matrix];
    unfold getitem; rewrite ?nth_error_map; unfold mat in *.
  - destruct (nth_error a 0); reflexivity.
  - astype_norm. reflexivity.
  - destruct (nth_error t 0) as [a0|]; [|reflexivity].
    destruct (nth_error t 1) as [a1|]; [|astype_norm; reflexivity].
    destruct (nth_error t 2) as [a2|]; [|astype_norm; reflexivity].
    destruct (nth_error t 3) as [a3|]; astype_norm; reflexivity.
  - reflexivity.
Qed.

(** C10: [eval_rho] never reaches the molecular density routine: its
    result does not depend on that routine, for no orbital array, and a
    real-valued orbital array goes through the same four real contractions
    as the complex array with zero imaginary part. *)
Theorem eval_rho_no_real_path (BLKSIZE : nat)
    (f g : Cell -> ndarray -> matrix -> mask -> bool -> option Z ->
           result rho_array)
    (mol : Cell) (ao : ndarray) (d : nd R) (dm : matrix)
    (non0tab : option mask) (isgga : bool) (verbose : option Z) :
  eval_rho BLKSIZE f mol ao dm non0tab isgga verbose
  = eval_rho BLKSIZE g mol ao dm non0tab isgga verbose /\
  eval_rho BLKSIZE f mol (Float64 d) dm non0tab isgga verbose
  = eval_rho BLKSIZE g mol (Complex128 (astype_complex d)) dm non0tab
      isgga verbose.
Proof.
  split; [reflexivity|].
  rewrite eval_rho_real_as_complex. reflexivity.
Qed.

(** A real-valued orbital array (1, 2) with the density matrix
    [[0, 1+2i], [1-2i, 0]]: the density is 2 * 1 * 2 * Re(1+2i) = 4, though
    the molecular routine is never available. *)
Example eval_rho_real_sample :
  exists v,
    eval_rho 96 no_eval_rho sample_cell (Float64 (Nd2 [[1; 2]]))
      (C128 [[mkC 0 0; mkC 1 2]; [mkC 1 (-2); mkC 0 0]]) None false None
    = Ok (Rho1 [v]) /\ v = 4.
Proof. eexists. split; [reflexivity|]. cbn. lra. Qed.

(** ** The potential-matrix evaluator *)

Lemma Cconj_C0 : Cconj C0 = C0.
Proof. unfold Cconj, C0. cbn. f_equal. ring. Qed.

Lemma cget2_conj (a : mat C) (i j : nat) :
  cget2 (conj a) i j = Cconj (cget2 a i j).
Proof.
  unfold cget2, conj. rewrite <- Cconj_C0 at 1.
  apply (nth_map_map Cconj a C0).
Qed.


Lemma madd_square (n : nat) (a b : mat R) :
  rect n n a -> madd a b = tabulate2 n n (fun i j => get2 a i j + get2 b i j).
Proof.
  intros H. unfold madd. now rewrite (rect_nrows n n a H), (rect_square_ncols n a H).
Qed.

Lemma msub_square (n : nat) (a b : mat R) :
  rect n n a -> msub a b = tabulate2 n n (fun i j => get2 a i j - get2 b i j).
Proof.
  intros H. unfold msub. now rewrite (rect_nrows n n a H), (rect_square_ncols n a H).
Qed.

Lemma complex_of_parts_square (n : nat) (a b : mat R) :
  rect n n a ->
  complex_of_parts a b
  = tabulate2 n n (fun i j => Cadd (RtoC (get2 a i j)) (Cmul Ci (RtoC (get2 b i j)))).
Proof.
  intros H. unfold complex_of_parts.
  now rewrite (rect_nrows n n a H), (rect_square_ncols n a H).
Qed.

Lemma transpose_square (n : nat) (a : mat C) :
  rect n n a -> transpose a = tabulate2 n n (fun i j => cget2 a j i).
Proof.
  intros H. unfold transpose.
  now rewrite (rect_nrows n n a H), (rect_square_ncols n a H).
Qed.

Lemma Cadd_conj_swap (z w : C) :
  Cadd z (Cconj w) = Cconj (Cadd w (Cconj z)).
Proof. destruct z, w. unfold Cadd, Cconj. cbn. f_equal; ring. Qed.

Lemma map_tabulate2 {A B : Type} (g : A -> B) (n m : nat) (f : nat -> nat -> A) :
  map (map g) (tabulate2 n m f) = tabulate2 n m (fun i j => g (f i j)).
Proof.
  unfold tabulate2, tabulate. rewrite map_map. apply map_ext.
  intros p. now rewrite map_map.
Qed.

(** [mat + mat.T.conj()] for a square [mat]. *)
Lemma symmetrized_entries (n : nat) (m : mat C) :
  rect n n m ->
  cmadd m (conj (transpose m))
  = tabulate2 n n (fun i j => Cadd (cget2 m i j) (Cconj (cget2 m j i))).
Proof.
  intros H. unfold cmadd.
  rewrite (rect_nrows n n m H), (rect_square_ncols n m H).
  apply tabulate2_ext. intros i j Hi Hj.
  rewrite cget2_conj, (transpose_square n m H), cget2_tabulate2 by assumption.
  reflexivity.
Qed.

Lemma symmetrized_hermitian (n : nat) (m : mat C) :
  rect n n m ->
  let M := cmadd m (conj (transpose m)) in
  rect n n M /\ M = conj (transpose M) /\ hermitian M.
Proof.
  intros H M. subst M. rewrite (symmetrized_entries n m H).
  set (g := fun i j => Cadd (cget2 m i j) (Cconj (cget2 m j i))).
  assert (HM : rect n n (tabulate2 n n g)) by apply rect_tabulate2.
  assert (Hg : forall i j, g i j = Cconj (g j i))
    by (intros i j; apply Cadd_conj_swap).
  split; [exact HM|]. split.
  - rewrite (transpose_square n _ HM). unfold conj. rewrite map_tabulate2.
    apply tabulate2_ext. intros i j Hi Hj.
    rewrite cget2_tabulate2 by assumption. apply Hg.
  - intros i j.
    destruct (Nat.lt_ge_cases i n) as [Hi|Hi];
      [destruct (Nat.lt_ge_cases j n) as [Hj|Hj]|].
    + rewrite !cget2_tabulate2 by assumption. apply Hg.
    + rewrite !(cget2_out n n _ _ _ HM) by lia. now rewrite Cconj_C0.
    + rewrite !(cget2_out n n _ _ _ HM) by lia. now rewrite Cconj_C0.
Qed.

Lemma rect_dot_ao_ao (mol : Cell) (ao1 ao2 : mat R) (nao ngrids : nat) (nt : mask) :
  rect nao nao (_dot_ao_ao mol ao1 ao2 nao ngrids nt).
Proof. apply rect_tabulate2. Qed.

Lemma assembled_square (mol : Cell) (x1 y1 x2 y2 x3 y3 x4 y4 : mat R)
    (nao ngrids : nat) (nt : mask) :
  rect nao nao
    (complex_of_parts
       (madd (_dot_ao_ao mol x1 y1 nao ngrids nt) (_dot_ao_ao mol x2 y2 nao ngrids nt))
       (msub (_dot_ao_ao mol x3 y3 nao ngrids nt) (_dot_ao_ao mol x4 y4 nao ngrids nt))).
Proof.
  rewrite (complex_of_parts_square nao).
  - apply rect_tabulate2.
  - rewrite (madd_square nao) by apply rect_dot_ao_ao. apply rect_tabulate2.
Qed.






Lemma get2_dot_ao_ao (mol : Cell) (ao1 ao2 : mat R) (nao ngrids : nat)
    (nt : mask) (i j : nat) :
  (i < nao)%nat -> (j < nao)%nat ->
  get2 (_dot_ao_ao mol ao1 ao2 nao ngrids nt) i j
  = sum_n ngrids (fun p => get2 ao1 p i * get2 ao2 p j).
Proof.
  intros Hi Hj. unfold _dot_ao_ao. rewrite get2_tabulate2 by assumption.
  reflexivity.
Qed.

Lemma get2_scale_rows (a : mat R) (v : list R) (p i : nat) :
  (p < nrows a)%nat -> (i < ncols a)%nat ->
  get2 (scale_rows a v) p i = get2 a p i * nth p v 0.
Proof.
  intros Hp Hi. unfold scale_rows. rewrite get2_tabulate2 by assumption.
  reflexivity.
Qed.

Lemma nth_repeat_lt (c : R) (n p : nat) : (p < n)%nat -> nth p (repeat c n) 0 = c.
Proof.
  intros Hp. rewrite (nth_indep _ 0 c) by now rewrite repeat_length.
  apply nth_repeat.
Qed.


Lemma scaled_contraction (X Y : mat R) (w : list R) (c : R) (n m k l : nat) :
  nrows Y = n -> ncols Y = m -> (l < m)%nat ->
  sum_n n (fun p => get2 X p k *
                    get2 (scale_rows Y (vmul (vscale 0.5 w) (repeat c n))) p l)
  = 0.5 * c * sum_n n (fun p => nth p w 0 * (get2 X p k * get2 Y p l)).
Proof.
  intros Hn Hm Hl. rewrite <- sum_n_scal_l. apply sum_n_ext. intros p Hp.
  rewrite get2_scale_rows by lia.
  rewrite nth_vmul, nth_vscale, nth_repeat_lt by assumption. ring.
Qed.

Lemma weighted_sum_sym (X Y : mat R) (w : list R) (n k l : nat) :
  sum_n n (fun p => nth p w 0 * (get2 X p k * get2 Y p l))
  = sum_n n (fun p => nth p w 0 * (get2 Y p l * get2 X p k)).
Proof. apply sum_n_ext. intros p _. ring. Qed.

Lemma weighted_overlap_parts (A : mat C) (w : list R) (n i j : nat) :
  weighted_overlap A w n i j
  = mkC (sum_n n (fun p => nth p w 0 * (get2 (map (map Re) A) p i * get2 (map (map Re) A) p j))
         + sum_n n (fun p => nth p w 0 * (get2 (map (map Im) A) p i * get2 (map (map Im) A) p j)))
        (sum_n n (fun p => nth p w 0 * (get2 (map (map Re) A) p i * get2 (map (map Im) A) p j))
         - sum_n n (fun p => nth p w 0 * (get2 (map (map Im) A) p i * get2 (map (map Re) A) p j))).
Proof.
  unfold weighted_overlap, Csum_n. f_equal.
  - rewrite <- sum_n_plus. apply sum_n_ext. intros p _.
    rewrite !get2_real, !get2_imag. cbn. ring.
  - rewrite <- sum_n_minus. apply sum_n_ext. intros p _.
    rewrite !get2_real, !get2_imag. cbn. ring.
Qed.

(** C6: in value-only mode with the default shell mask, for every complex
    orbital array [A] (with at least one grid point), weights [w] (one per
    grid point) and constant potential derivative [vrho = c], [eval_mat]
    returns c times
    the weighted overlap-like matrix Sum_p w_p conj(A_p) A_p^T: the factor
    0.5 on the weighted orbitals and the final [mat + mat^H] leave no net
    factor. *)
Theorem eval_mat_constant_vrho (BLKSIZE : nat)
    (pyscf_eval_mat : Cell -> ndarray -> list R -> rho_array -> list R ->
                      option (list R) -> option mask -> bool -> option Z ->
                      result matrix)
    (mol : Cell) (A : mat C) (w : list R) (rho : rho_array) (c : R)
    (vsigma : option (list R)) (verbose : option Z) :
  A <> [] ->
  length w = nrows A ->
  eval_mat BLKSIZE pyscf_eval_mat mol (Complex128 (Nd2 A)) w rho
    (repeat c (nrows A)) vsigma None false verbose
  = Ok (C128 (tabulate2 (ncols A) (ncols A)
                (fun i j => Cmul (RtoC c) (weighted_overlap A w (nrows A) i j)))).
Proof.
  intros HA _. rename BLKSIZE into B. rename pyscf_eval_mat into f.
  assert (Hg : exists r0, getitem A 0 = Ok r0)
    by (destruct A as [|r0 A']; [contradiction|now exists r0]).
  destruct Hg as [r0 Hg].
  unfold eval_mat, unpack_shape, dtype_of_first. rewrite Hg.
  cbn [as_matrix bind matrix_shape shape2 dtype_eqb real2 imag2].
  do 2 f_equal.
  rewrite (symmetrized_entries (ncols A)) by apply assembled_square.
  apply tabulate2_ext. intros i j Hi Hj.
  rewrite !(complex_of_parts_square (ncols A))
    by (rewrite (madd_square (ncols A)) by apply rect_dot_ao_ao; apply rect_tabulate2).
  rewrite !cget2_tabulate2 by assumption.
  rewrite !(madd_square (ncols A)), !(msub_square (ncols A)) by apply rect_dot_ao_ao.
  rewrite !get2_tabulate2 by assumption.
  rewrite !get2_dot_ao_ao by assumption.
  rewrite !(scaled_contraction _ _ w c (nrows A) (ncols A))
    by (assumption || apply nrows_map || apply ncols_map_map).
  rewrite weighted_overlap_parts.
  rewrite (weighted_sum_sym (map (map Re) A) (map (map Re) A) w (nrows A) j i).
  rewrite (weighted_sum_sym (map (map Im) A) (map (map Im) A) w (nrows A) j i).
  rewrite (weighted_sum_sym (map (map Re) A) (map (map Im) A) w (nrows A) j i).
  rewrite (weighted_sum_sym (map (map Im) A) (map (map Re) A) w (nrows A) j i).
  unfold Cadd, Cconj, Cmul, RtoC, Ci. cbn [Re Im]. f_equal; lra.
Qed.

Lemma eval_mat_constant_vrho_witness :
  sample_ao <> [] /\
  length [5] = nrows sample_ao /\
  eval_mat 96 no_eval_mat sample_cell (Complex128 (Nd2 sample_ao)) [5]
    (Rho1 [2]) (repeat 3 (nrows sample_ao)) None None false None
  = Ok (C128 (tabulate2 (ncols sample_ao) (ncols sample_ao)
                (fun i j => Cmul (RtoC 3)
                              (weighted_overlap sample_ao [5] (nrows sample_ao) i j)))).
Proof.
  split; [discriminate|]. split; [reflexivity|].
  apply (eval_mat_constant_vrho 96 no_eval_mat sample_cell sample_ao [5]
           (Rho1 [2]) 3 None None).
  - discriminate.
  - reflexivity.
Defined.

(** C8: on complex gradient-mode orbitals with [isgga = True], [eval_mat]
    fails with [AssertionError] exactly when [vsigma] is absent or the
    density is not a rank-2 array. *)
Theorem eval_mat_assertion (BLKSIZE : nat)
    (pyscf_eval_mat : Cell -> ndarray -> list R -> rho_array -> list R ->
                      option (list R) -> option mask -> bool -> option Z ->
                      result matrix)
    (mol : Cell) (t : list (mat C)) (weight : list R) (rho : rho_array)
    (vrho : list R) (vsigma : option (list R)) (non0tab : option mask)
    (verbose : option Z) :
  t <> [] ->
  (eval_mat BLKSIZE pyscf_eval_mat mol (Complex128 (Nd3 t)) weight rho vrho
     vsigma non0tab true verbose = Raise AssertionError
   <-> vsigma = None \/ ndim rho <> 2%nat).
Proof.
  intros Ht. destruct t as [|a0 t]; [contradiction|].
  unfold eval_mat, unpack_shape.
  cbn [component getitem nth_error bind dtype_of_first dtype_eqb matrix_shape shape2].
  destruct vsigma as [vs|]; destruct rho as [v|m]; cbn [is_none negb andb ndim Nat.eqb py_assert bind].
  - split; [intros _; right; discriminate|reflexivity].
  - split.
    + destruct m as [|r0 m]; cbn; discriminate.
    + intros [H|H]; [discriminate|contradiction].
  - split; [intros _; now left|reflexivity].
  - split; [intros _; now left|reflexivity].
Qed.

Lemma eval_mat_assertion_witness :
  sample_ao3 <> [] /\
  (eval_mat 96 no_eval_mat sample_cell (Complex128 (Nd3 sample_ao3)) [1]
     (Rho1 [1]) [1] (Some [1]) None true None = Raise AssertionError
   <-> Some [1] = None \/ ndim (Rho1 [1]) <> 2%nat).
Proof.
  split; [discriminate|].
  apply (eval_mat_assertion 96 no_eval_mat sample_cell sample_ao3 [1]
           (Rho1 [1]) [1] (Some [1]) None None).
  discriminate.
Defined.

(** On orbitals that are not complex, [eval_mat] hands the call to the
    molecular routine with [vsigma=None, non0tab=None, isgga=False,
    verbose=None], whatever the caller passed for them. *)
Lemma eval_mat_real_fallback (BLKSIZE : nat)
    (pyscf_eval_mat : Cell -> ndarray -> list R -> rho_array -> list R ->
                      option (list R) -> option mask -> bool -> option Z ->
                      result matrix)
    (mol : Cell) (d : nd R) (weight : list R) (rho : rho_array)
    (vrho : list R) (vsigma : option (list R)) (non0tab : option mask)
    (isgga : bool) (verbose : option Z) :
  eval_mat BLKSIZE pyscf_eval_mat mol (Float64 d) weight rho vrho vsigma
    non0tab isgga verbose
  = (_ <- unpack_shape isgga (Float64 d) ;;
     _ <- dtype_of_first (Float64 d) ;;
     pyscf_eval_mat mol (Float64 d) weight rho vrho None None false None).
Proof.
  unfold eval_mat.
  destruct (unpack_shape isgga (Float64 d)) as [[ngrids nao]|e]; [|reflexivity].
  cbn [bind]. destruct d as [a|t]; cbn [dtype_of_first].
  - destruct (getitem a 0); reflexivity.
  - destruct (getitem t 0); reflexivity.
Qed.

(** C4 (the code departs from it): for the real-valued gradient-mode
    orbital array of shape (4, 1, 1), with [isgga = True] and [vsigma]
    given, [eval_mat] raises [ValueError], because the molecular routine is
    called with [isgga=False] and cannot unpack the rank-3 shape; the
    molecular routine on the same inputs returns the matrix [[13]]. *)
Theorem eval_mat_real_gradient_diverges :
  eval_mat 96 (pyscf_dft_eval_mat 96) sample_cell sample_real_ao3 [1]
    (Rho2 [[1]; [1]; [1]; [1]]) [1] (Some [1]) None true None
  = Raise ValueError /\
  exists m,
    pyscf_dft_eval_mat 96 sample_cell sample_real_ao3 [1]
      (Rho2 [[1]; [1]; [1]; [1]]) [1] (Some [1]) None true None
    = Ok (F64 [[m]]) /\ m = 13.
Proof.
  split; [reflexivity|].
  eexists. split; [reflexivity|]. cbn. lra.
Qed.

(** ** The periodic AO evaluator *)

Lemma lattice_vector_zero (hm : vec3 * vec3 * vec3) :
  lattice_vector hm (0, 0, 0)%Z = (0, 0, 0).
Proof.
  destruct hm as [[[[a b] c] [[d e] f]] [[g h] i]].
  unfold lattice_vector, dot3. repeat f_equal; ring.
Qed.

Lemma shift_zero (coords : list vec3) : shift coords (0, 0, 0) = coords.
Proof.
  unfold shift. rewrite <- (map_id coords) at 2. apply map_ext.
  intros [[x y] z]. repeat f_equal; ring.
Qed.

Lemma phase_zero (L : vec3) :
  Cexp (Cmul Ci (RtoC (dot3 (0, 0, 0) L))) = mkC 1 0.
Proof.
  destruct L as [[l0 l1] l2]. unfold Cexp, Cmul, Ci, RtoC, dot3. cbn [Re Im].
  replace (0 * (0 * l0 + 0 * l1 + 0 * l2) - 1 * 0) with 0 by ring.
  replace (0 * 0 + 1 * (0 * l0 + 0 * l1 + 0 * l2)) with 0 by ring.
  rewrite exp_0, cos_0, sin_0. f_equal; ring.
Qed.

Lemma scale_one (d : nd R) : scale (mkC 1 0) d = astype_complex d.
Proof.
  assert (H : forall x, Cmul (mkC 1 0) (RtoC x) = RtoC x).
  { intros x. unfold Cmul, RtoC. simpl. f_equal; ring. }
  destruct d as [a|t]; unfold scale, astype_complex; f_equal.
  - apply map_ext. intros r. apply map_ext. exact H.
  - apply map_ext. intros a. apply map_ext. intros r. apply map_ext. exact H.
Qed.

Lemma Cadd_C0_l (z : C) : Cadd C0 z = z.
Proof. destruct z as [x y]. unfold Cadd, C0. cbn [Re Im]. f_equal; ring. Qed.

Lemma tabulate2_cget2 (n m : nat) (a : mat C) :
  rect n m a -> tabulate2 n m (cget2 a) = a.
Proof.
  intros [Hn Hf]. unfold tabulate2. subst n.
  rewrite <- (tabulate_nth [] a) at 2.
  apply tabulate_ext. intros p Hp.
  assert (Hl : length (nth p a []) = m).
  { rewrite Forall_forall in Hf. apply Hf. now apply nth_In. }
  rewrite <- Hl. unfold cget2. apply tabulate_nth.
Qed.

Lemma rect_astype (n m : nat) (a : mat R) : rect n m a -> rect n m (map (map RtoC) a).
Proof.
  intros [Hn Hf]. split; [now rewrite length_map|].
  apply Forall_forall. intros r Hr. apply in_map_iff in Hr.
  destruct Hr as [r' [<- Hr']]. rewrite length_map.
  rewrite Forall_forall in Hf. now apply Hf.
Qed.

(** Adding an array of the same shape into the zero array. *)
Lemma cmadd_zeros (n m : nat) (b : mat C) :
  rect n m b -> cmadd (zeros2 n m) b = b.
Proof.
  intros Hb. unfold cmadd.
  assert (Hz : rect n m (zeros2 n m)) by apply rect_tabulate2.
  rewrite (rect_nrows n m _ Hz).
  destruct n as [|n].
  - destruct Hb as [Hb _]. destruct b; [reflexivity|discriminate].
  - rewrite (rect_ncols (S n) m _ Hz) by lia.
    transitivity (tabulate2 (S n) m (cget2 b));
      [|now apply tabulate2_cget2].
    apply tabulate2_ext. intros p i Hp Hi.
    unfold zeros2. rewrite cget2_tabulate2 by assumption. apply Cadd_C0_l.
Qed.

(** C5: for a cell with image counts (0, 0, 0) and no k-point,
    [eval_ao] returns the output of the molecular AO evaluator at the
    unshifted coordinates, cast to complex with zero imaginary part. *)
Theorem eval_ao_single_image
    (pyscf_eval_ao : Cell -> list vec3 -> bool -> Z -> nat -> option nat ->
                     option mask -> option Z -> result (nd R))
    (cell : Cell) (coords : list vec3) (isgga : bool) (relativity : Z)
    (bastart : nat) (bascount : option nat) (non0tab : option mask)
    (verbose : option Z) (d : nd R) :
  nimgs cell = (0, 0, 0)%Z ->
  pyscf_eval_ao cell coords isgga relativity bastart bascount non0tab verbose
  = Ok d ->
  ao_shaped isgga (length coords) (nao_nr cell) d ->
  eval_ao pyscf_eval_ao cell coords None isgga relativity bastart bascount
    non0tab verbose
  = Ok (Complex128 (astype_complex d)).
Proof.
  intros Hn Hf Hd. unfold eval_ao. rewrite Hn, Ts_zero. cbn [foldM].
  rewrite lattice_vector_zero, shift_zero, Hf. cbn [bind].
  rewrite phase_zero, scale_one.
  destruct d as [a|t]; cbn [ao_shaped] in Hd.
  - destruct Hd as [-> Ha]. cbn [astype_complex iadd bind].
    rewrite cmadd_zeros by now apply rect_astype. reflexivity.
  - destruct Hd as [-> [Hl Ht]]. cbn [astype_complex iadd bind].
    do 3 f_equal.
    rewrite length_tabulate.
    transitivity (tabulate 4 (fun n => nth n (map (map (map RtoC)) t) []));
      [|pose proof (tabulate_nth [] (map (map (map RtoC)) t)) as Ht';
        rewrite length_map in Ht'; unfold mat in *; rewrite Hl in Ht';
        exact Ht'].
    apply tabulate_ext. intros n Hn'.
    rewrite nth_tabulate by assumption.
    apply cmadd_zeros.
    change (@nil (list C)) with (map (map RtoC) []). rewrite map_nth.
    apply rect_astype. rewrite Forall_forall in Ht. apply Ht.
    apply nth_In. unfold mat in *. lia.
Qed.

Lemma eval_ao_single_image_witness :
  nimgs sample_cell = (0, 0, 0)%Z /\
  eval_ao sample_eval_ao sample_cell [(0, 0, 0); (1, 0, 0)] None false 0%Z
    0%nat None None None
  = Ok (Complex128 (Nd2 [[mkC 1 0; mkC 2 0]; [mkC 1 0; mkC 2 0]])).
Proof.
  split; [reflexivity|].
  apply (eval_ao_single_image sample_eval_ao sample_cell
           [(0, 0, 0); (1, 0, 0)] false 0%Z 0%nat None None None
           (Nd2 [[1; 2]; [1; 2]])).
  - reflexivity.
  - reflexivity.
  - split; [reflexivity|]. split; [reflexivity|].
    repeat constructor.
Defined.

(** * Further properties *)

(** ** More on the lattice image set *)

Lemma NoDup_range (lo hi : Z) : NoDup (range lo hi).
Proof.
  unfold range. generalize (seq_NoDup (Z.to_nat (hi - lo)) 0).
  generalize (seq 0 (Z.to_nat (hi - lo))) as l.
  induction l as [|n l IH]; intros Hl; simpl; [constructor|].
  inversion Hl as [|? ? Hn Hl']; subst. constructor; [|now apply IH].
  intros Hin. apply in_map_iff in Hin. destruct Hin as [m [Hm Hin]].
  assert (m = n) by lia. subst m. contradiction.
Qed.

Lemma NoDup_flat_map_tagged {A B : Type} (f : A -> list B) (g : B -> A) (l : list A) :
  NoDup l ->
  (forall x, In x l -> NoDup (f x)) ->
  (forall x y, In x l -> In y (f x) -> g y = x) ->
  NoDup (flat_map f l).
Proof.
  intros Hl Hf Hg. induction Hl as [|x l Hx Hl IH]; simpl; [constructor|].
  apply NoDup_app.
  - apply Hf. now left.
  - apply IH.
    + intros y Hy. apply Hf. now right.
    + intros y z Hy Hz. apply Hg; [now right|assumption].
  - intros y Hy Hy'. apply in_flat_map in Hy'. destruct Hy' as [x' [Hx' Hy']].
    assert (g y = x) by (apply Hg; [now left|assumption]).
    assert (g y = x') by (apply Hg; [now right|assumption]).
    congruence.
Qed.

(** X1: no lattice image is enumerated twice, so the sum over images in
    [eval_ao] counts each translation once. *)
Theorem Ts_NoDup (nimgs : Z * Z * Z) : NoDup (Ts nimgs).
Proof.
  destruct nimgs as [[n0 n1] n2]. unfold Ts.
  apply (NoDup_flat_map_tagged _ (fun T : Z * Z * Z => fst (fst T)));
    [apply NoDup_range| |].
  - intros i _.
    apply (NoDup_flat_map_tagged _ (fun T : Z * Z * Z => snd (fst T)));
      [apply NoDup_range| |].
    + intros j _.
      apply (NoDup_flat_map_tagged _ (fun T : Z * Z * Z => snd T));
        [apply NoDup_range| |].
      * intros k _. destruct (within_cutoff _ i j k); repeat constructor. intros [].
      * intros k T _ HT. destruct (within_cutoff _ i j k); simpl in HT;
          [destruct HT as [<-|[]]; reflexivity|destruct HT].
    + intros j T _ HT. apply in_flat_map in HT. destruct HT as [k [_ HT]].
      destruct (within_cutoff _ i j k); simpl in HT;
        [destruct HT as [<-|[]]; reflexivity|destruct HT].
  - intros i T _ HT. apply in_flat_map in HT. destruct HT as [j [_ HT]].
    apply in_flat_map in HT. destruct HT as [k [_ HT]].
    destruct (within_cutoff _ i j k); simpl in HT;
      [destruct HT as [<-|[]]; reflexivity|destruct HT].
Qed.

(** X2: the zero translation is among the images exactly when none of the
    three image counts is negative. *)
Theorem Ts_zero_translation (nimgs : Z * Z * Z) :
  In (0, 0, 0)%Z (Ts nimgs) <->
  (let '(n0, n1, n2) := nimgs in 0 <= n0 /\ 0 <= n1 /\ 0 <= n2)%Z.
Proof.
  rewrite in_Ts. destruct nimgs as [[n0 n1] n2].
  unfold in_box, within_cutoff, dot3Z. rewrite Z.leb_le. split.
  - intros [H _]. lia.
  - intros H. split; [lia|]. nia.
Qed.

(** X3: the image set is symmetric under inversion: (i, j, k) is
    enumerated exactly when (-i, -j, -k) is. *)
Theorem Ts_inversion (nimgs : Z * Z * Z) (i j k : Z) :
  In (i, j, k) (Ts nimgs) <-> In (- i, - j, - k)%Z (Ts nimgs).
Proof.
  rewrite !in_Ts. destruct nimgs as [[n0 n1] n2].
  unfold in_box, within_cutoff.
  replace ((- i) ^ 2 + (- j) ^ 2 + (- k) ^ 2)%Z with (i ^ 2 + j ^ 2 + k ^ 2)%Z by ring.
  split; intros [H E]; (split; [lia|exact E]).
Qed.

Lemma Ts_isotropic_witness :
  (0 <= 2)%Z /\
  (In (1, 1, 1)%Z (Ts (2, 2, 2)%Z) <-> sum_sq_criterion (2, 2, 2)%Z 1 1 1).
Proof. split; [lia|]. apply (Ts_isotropic 2 1 1 1). lia. Defined.

(** With a negative image count one of the three ranges is empty, and only
    then is the image set empty. *)
Lemma Ts_empty (nimgs : Z * Z * Z) :
  Ts nimgs = [] <->
  (let '(n0, n1, n2) := nimgs in n0 < 0 \/ n1 < 0 \/ n2 < 0)%Z.
Proof.
  split.
  - intros H. pose proof (in_Ts nimgs 0 0 0) as Hz. rewrite H in Hz.
    destruct nimgs as [[n0 n1] n2].
    unfold in_box, within_cutoff, dot3Z in Hz. rewrite Z.leb_le in Hz.
    destruct (Z_lt_ge_dec n0 0); [tauto|].
    destruct (Z_lt_ge_dec n1 0); [tauto|].
    destruct (Z_lt_ge_dec n2 0); [tauto|].
    exfalso. apply Hz. split; [lia|nia].
  - intros H. destruct (Ts nimgs) as [|[[i j] k] l] eqn:E; [reflexivity|].
    assert (Hin : In (i, j, k) (Ts nimgs)) by (rewrite E; now left).
    apply in_Ts in Hin. destruct nimgs as [[n0 n1] n2].
    unfold in_box in Hin. lia.
Qed.

(** X5: when an image count is negative, [eval_ao] returns the all-zero
    complex array of the requested shape; the molecular evaluator is not
    consulted, so not even its failures surface. *)
Theorem eval_ao_no_images (f : ao_evaluator) (cell : Cell) (coords : list vec3)
    (kpt : option vec3) (isgga : bool) (relativity : Z) (bastart : nat)
    (bascount : option nat) (non0tab : option mask) (verbose : option Z) :
  (let '(n0, n1, n2) := nimgs cell in n0 < 0 \/ n1 < 0 \/ n2 < 0)%Z ->
  eval_ao f cell coords kpt isgga relativity bastart bascount non0tab verbose
  = Ok (Complex128 (zero_ao isgga (length coords) (nao_nr cell))).
Proof.
  intros H. apply Ts_empty in H. unfold eval_ao. rewrite H.
  destruct isgga; reflexivity.
Qed.

Lemma eval_ao_no_images_witness :
  (let '(n0, n1, n2) := nimgs sample_cell_negative in
   n0 < 0 \/ n1 < 0 \/ n2 < 0)%Z /\
  eval_ao no_eval_ao sample_cell_negative [(0, 0, 0)] (Some (1, 0, 0)) false
    0%Z 0%nat None None None
  = Ok (Complex128 (zero_ao false 1 2)).
Proof.
  split; [cbn; lia|].
  apply (eval_ao_no_images no_eval_ao sample_cell_negative [(0, 0, 0)]
           (Some (1, 0, 0)) false 0%Z 0%nat None None None).
  cbn. lia.
Defined.

Lemma cmadd_tabulate2 (n m : nat) (g : nat -> nat -> C) (y : mat C) :
  cmadd (tabulate2 n m g) y
  = tabulate2 n m (fun p i => Cadd (g p i) (cget2 y p i)).
Proof.
  unfold cmadd. destruct n as [|n]; [reflexivity|].
  rewrite (rect_nrows (S n) m _ (rect_tabulate2 (S n) m g)).
  rewrite (rect_ncols (S n) m _ (rect_tabulate2 (S n) m g)) by lia.
  apply tabulate2_ext. intros p i Hp Hi.
  now rewrite cget2_tabulate2.
Qed.

Lemma Cmul_RtoC_0 (z : C) : Cmul z (RtoC 0) = C0.
Proof. unfold Cmul, RtoC, C0. cbn [Re Im]. f_equal; ring. Qed.

Lemma cget2_scale (z : C) (a : mat R) (p i : nat) :
  cget2 (map (map (fun x => Cmul z (RtoC x))) a) p i = Cmul z (RtoC (get2 a p i)).
Proof.
  unfold cget2, get2. rewrite <- (Cmul_RtoC_0 z) at 1.
  apply (nth_map_map (fun x => Cmul z (RtoC x)) a 0).
Qed.

Lemma foldM_bloch (f : ao_evaluator) (cell : Cell) (coords : list vec3) (k : vec3)
    (relativity : Z) (bastart : nat) (bascount : option nat)
    (non0tab : option mask) (verbose : option Z)
    (a : Z * Z * Z -> mat R) (n m : nat) (l : list (Z * Z * Z)) :
  (forall T, In T l ->
     f cell (shift coords (lattice_vector (h cell) T)) false relativity bastart
       bascount non0tab verbose = Ok (Nd2 (a T))) ->
  forall g : nat -> nat -> C,
  foldM (fun aoR T =>
           let L := lattice_vector (h cell) T in
           ao_T <- f cell (shift coords L) false relativity bastart bascount
                     non0tab verbose ;;
           iadd aoR (scale (Cexp (Cmul Ci (RtoC (dot3 k L)))) ao_T))
        l (Nd2 (tabulate2 n m g))
  = Ok (Nd2 (tabulate2 n m (fun p i =>
        fold_left (fun acc T =>
                     Cadd acc (Cmul (bloch_phase cell k T) (RtoC (get2 (a T) p i))))
                  l (g p i)))).
Proof.
  induction l as [|T l IH]; intros Hf g; [reflexivity|].
  cbn [foldM]. cbv zeta. rewrite (Hf T) by now left.
  cbn [bind scale iadd]. rewrite cmadd_tabulate2, IH by (intros T' HT'; apply Hf; now right).
  do 2 f_equal. apply tabulate2_ext. intros p i _ _. cbn [fold_left].
  rewrite cget2_scale. reflexivity.
Qed.

(** X6: in value-only mode with a k-point [k], when the molecular
    evaluator returns the (ngrids, nao) array [a T] at the coordinates
    shifted by the lattice vector of each image [T], [eval_ao] returns the
    Bloch sum:
    entry (p, i) is the sum over the images of exp(i k.L_T) * a_T[p, i]. *)
Theorem eval_ao_bloch_sum (f : ao_evaluator) (cell : Cell) (coords : list vec3)
    (k : vec3) (relativity : Z) (bastart : nat) (bascount : option nat)
    (non0tab : option mask) (verbose : option Z) (a : Z * Z * Z -> mat R) :
  (forall T, In T (Ts (nimgs cell)) ->
     f cell (shift coords (lattice_vector (h cell) T)) false relativity bastart
       bascount non0tab verbose = Ok (Nd2 (a T))) ->
  (forall T, In T (Ts (nimgs cell)) ->
     rect (length coords) (nao_nr cell) (a T)) ->
  eval_ao f cell coords (Some k) false relativity bastart bascount non0tab
    verbose
  = Ok (Complex128 (Nd2 (tabulate2 (length coords) (nao_nr cell)
                           (bloch_sum cell k a)))).
Proof.
  intros Hf _. unfold eval_ao, zeros2.
  rewrite (foldM_bloch f cell coords k relativity bastart bascount non0tab
             verbose a _ _ _ Hf).
  reflexivity.
Qed.

Lemma sample_images_rect (T : Z * Z * Z) : rect 1 2 (sample_images T).
Proof.
  destruct T as [[i j] k]. split; [reflexivity|]. repeat constructor.
Qed.

Lemma eval_ao_bloch_sum_witness :
  (forall T, In T (Ts (nimgs sample_cell_images)) ->
     sample_eval_ao sample_cell_images
       (shift [(0, 0, 0)] (lattice_vector (h sample_cell_images) T)) false
       0%Z 0%nat None None None = Ok (Nd2 (sample_images T))) /\
  (forall T, In T (Ts (nimgs sample_cell_images)) ->
     rect 1 2 (sample_images T)) /\
  eval_ao sample_eval_ao sample_cell_images [(0, 0, 0)] (Some (1, 0, 0)) false
    0%Z 0%nat None None None
  = Ok (Complex128 (Nd2 (tabulate2 1 2
                           (bloch_sum sample_cell_images (1, 0, 0) sample_images)))).
Proof.
  split; [intros T _; reflexivity|].
  split; [intros T _; apply sample_images_rect|].
  apply (eval_ao_bloch_sum sample_eval_ao sample_cell_images [(0, 0, 0)]
           (1, 0, 0) 0%Z 0%nat None None None sample_images).
  - intros T _. reflexivity.
  - intros T _. apply sample_images_rect.
Defined.

Lemma fold_left_real_images (cell : Cell) (a : Z * Z * Z -> mat R) (p i : nat)
    (l : list (Z * Z * Z)) (x : R) :
  fold_left (fun acc T =>
               Cadd acc (Cmul (bloch_phase cell (0, 0, 0) T) (RtoC (get2 (a T) p i))))
            l (RtoC x)
  = RtoC (fold_left (fun acc T => acc + get2 (a T) p i) l x).
Proof.
  revert x. induction l as [|T l IH]; intros x; [reflexivity|].
  cbn [fold_left]. rewrite <- IH. f_equal.
  unfold bloch_phase. rewrite phase_zero.
  unfold Cadd, Cmul, RtoC. cbn [Re Im]. f_equal; ring.
Qed.

(** X7: without a k-point every phase is 1: in value-only mode, when the
    molecular evaluator returns an (ngrids, nao) array at every image,
    [eval_ao] returns the plain sum of the molecular orbital values over
    the images, cast to complex with zero imaginary part, for any number
    of images. *)
Theorem eval_ao_gamma_real (f : ao_evaluator) (cell : Cell) (coords : list vec3)
    (relativity : Z) (bastart : nat) (bascount : option nat)
    (non0tab : option mask) (verbose : option Z) (a : Z * Z * Z -> mat R) :
  (forall T, In T (Ts (nimgs cell)) ->
     f cell (shift coords (lattice_vector (h cell) T)) false relativity bastart
       bascount non0tab verbose = Ok (Nd2 (a T))) ->
  (forall T, In T (Ts (nimgs cell)) ->
     rect (length coords) (nao_nr cell) (a T)) ->
  eval_ao f cell coords None false relativity bastart bascount non0tab verbose
  = Ok (Complex128 (Nd2 (tabulate2 (length coords) (nao_nr cell)
                           (fun p i => RtoC (image_sum cell a p i))))).
Proof.
  intros Hf _. unfold eval_ao, zeros2.
  rewrite (foldM_bloch f cell coords (0, 0, 0) relativity bastart bascount
             non0tab verbose a _ _ _ Hf).
  cbn [bind]. do 3 f_equal. apply tabulate2_ext. intros p i _ _.
  apply (fold_left_real_images cell a p i).
Qed.

Lemma eval_ao_gamma_real_witness :
  (forall T, In T (Ts (nimgs sample_cell_images)) ->
     sample_eval_ao sample_cell_images
       (shift [(0, 0, 0)] (lattice_vector (h sample_cell_images) T)) false
       0%Z 0%nat None None None = Ok (Nd2 (sample_images T))) /\
  (forall T, In T (Ts (nimgs sample_cell_images)) ->
     rect 1 2 (sample_images T)) /\
  eval_ao sample_eval_ao sample_cell_images [(0, 0, 0)] None false
    0%Z 0%nat None None None
  = Ok (Complex128 (Nd2 (tabulate2 1 2
          (fun p i => RtoC (image_sum sample_cell_images sample_images p i))))).
Proof.
  split; [intros T _; reflexivity|].
  split; [intros T _; apply sample_images_rect|].
  apply (eval_ao_gamma_real sample_eval_ao sample_cell_images [(0, 0, 0)]
           0%Z 0%nat None None None sample_images).
  - intros T _. reflexivity.
  - intros T _. apply sample_images_rect.
Defined.

Lemma rect_cmadd (n m : nat) (a b : mat C) : rect n m a -> rect n m (cmadd a b).
Proof.
  intros Ha. unfold cmadd. rewrite (rect_nrows n m a Ha).
  destruct n as [|n].
  - split; [reflexivity|constructor].
  - rewrite (rect_ncols (S n) m a Ha) by lia. apply rect_tabulate2.
Qed.

Lemma iadd_shaped (isgga : bool) (n m : nat) (aoR y r : nd C) :
  nd_shaped isgga n m aoR -> iadd aoR y = Ok r -> nd_shaped isgga n m r.
Proof.
  destruct aoR as [a|s]; destruct y as [b|t]; cbn [iadd nd_shaped];
    intros H E; try discriminate; injection E as <-; cbn [nd_shaped].
  - destruct H as [Hg Ha]. split; [assumption|now apply rect_cmadd].
  - destruct H as [Hg [Hl Hs]]. split; [assumption|]. split.
    + now rewrite length_map.
    + apply Forall_forall. intros x Hx. apply in_map_iff in Hx.
      destruct Hx as [a [<- Ha]]. apply rect_cmadd.
      rewrite Forall_forall in Hs. now apply Hs.
  - destruct H as [Hg [Hl Hs]]. split; [assumption|]. split.
    + now rewrite length_tabulate.
    + apply Forall_forall. intros x Hx. unfold tabulate in Hx.
      apply in_map_iff in Hx. destruct Hx as [k [<- Hk]].
      apply in_seq in Hk. apply rect_cmadd.
      rewrite Forall_forall in Hs. apply Hs. apply nth_In. lia.
Qed.

Lemma zero_ao_shaped (isgga : bool) (n m : nat) :
  nd_shaped isgga n m (zero_ao isgga n m).
Proof.
  destruct isgga; cbn [zero_ao nd_shaped].
  - split; [reflexivity|]. split; [apply length_tabulate|].
    apply Forall_forall. intros x Hx. unfold tabulate in Hx.
    apply in_map_iff in Hx. destruct Hx as [k [<- _]]. apply rect_tabulate2.
  - split; [reflexivity|apply rect_tabulate2].
Qed.

Section Fold.

Variable f : ao_evaluator.
Variables (cell : Cell) (coords : list vec3) (k : vec3) (isgga : bool)
  (relativity : Z) (bastart : nat) (bascount : option nat)
  (non0tab : option mask) (verbose : option Z).

Let step (aoR : nd C) (T : Z * Z * Z) : result (nd C) :=
  let L := lattice_vector (h cell) T in
  ao_T <- f cell (shift coords L) isgga relativity bastart bascount non0tab
            verbose ;;
  iadd aoR (scale (Cexp (Cmul Ci (RtoC (dot3 k L)))) ao_T).

Lemma foldM_shaped (n m : nat) (l : list (Z * Z * Z)) :
  forall aoR r,
    nd_shaped isgga n m aoR -> foldM step l aoR = Ok r -> nd_shaped isgga n m r.
Proof.
  induction l as [|T l IH]; intros aoR r H E; cbn [foldM] in E.
  - now injection E as <-.
  - destruct (step aoR T) as [aoR'|e] eqn:Es; [|discriminate].
    cbn [bind] in E. apply (IH aoR' r); [|assumption].
    unfold step in Es. cbv zeta in Es.
    destruct (f cell _ isgga relativity bastart bascount non0tab verbose)
      as [ao_T|e]; [|discriminate].
    cbn [bind] in Es. eapply iadd_shaped; eassumption.
Qed.

Lemma foldM_raises (n m : nat) (l : list (Z * Z * Z)) :
  forall aoR e,
    nd_shaped isgga n m aoR -> foldM step l aoR = Raise e ->
    (exists T, In T l /\
       f cell (shift coords (lattice_vector (h cell) T)) isgga relativity
         bastart bascount non0tab verbose = Raise e) \/
    (e = ValueError /\ isgga = false /\
     exists T t, In T l /\
       f cell (shift coords (lattice_vector (h cell) T)) isgga relativity
         bastart bascount non0tab verbose = Ok (Nd3 t)).
Proof.
  induction l as [|T l IH]; intros aoR e H E; cbn [foldM] in E; [discriminate|].
  destruct (step aoR T) as [aoR'|e'] eqn:Es.
  - cbn [bind] in E.
    assert (H' : nd_shaped isgga n m aoR').
    { unfold step in Es. cbv zeta in Es.
      destruct (f cell _ isgga relativity bastart bascount non0tab verbose)
        as [ao_T|e2]; [|discriminate].
      cbn [bind] in Es. eapply iadd_shaped; eassumption. }
    destruct (IH aoR' e H' E) as [[T' [HT' Hf]]|[He [Hg [T' [t [HT' Hf]]]]]].
    + left. exists T'. split; [now right|assumption].
    + right. repeat split; try assumption. exists T', t. split; [now right|assumption].
  - cbn [bind] in E. injection E as <-.
    unfold step in Es. cbv zeta in Es.
    destruct (f cell (shift coords (lattice_vector (h cell) T)) isgga relativity
                bastart bascount non0tab verbose) as [ao_T|e2] eqn:Ef.
    + cbn [bind] in Es. right.
      destruct aoR as [a|s]; destruct ao_T as [b|t]; cbn [scale iadd] in Es;
        try discriminate.
      injection Es as <-. destruct H as [Hg _].
      repeat split; try assumption. exists T, t. split; [now left|assumption].
    + cbn [bind] in Es. injection Es as <-. left. exists T.
      split; [now left|assumption].
Qed.

End Fold.

(** X8: whenever [eval_ao] returns, the result is a complex array of shape
    (ngrids, nao), or (4, ngrids, nao) in gradient mode, with ngrids the
    number of coordinates and nao = cell.nao_nr(), whatever the molecular
    evaluator returned. *)
Theorem eval_ao_shape (f : ao_evaluator) (cell : Cell) (coords : list vec3)
    (kpt : option vec3) (isgga : bool) (relativity : Z) (bastart : nat)
    (bascount : option nat) (non0tab : option mask) (verbose : option Z)
    (r : ndarray) :
  eval_ao f cell coords kpt isgga relativity bastart bascount non0tab verbose
  = Ok r ->
  exists d, r = Complex128 d /\ nd_shaped isgga (length coords) (nao_nr cell) d.
Proof.
  unfold eval_ao. intros E.
  match type of E with bind ?m _ = _ => destruct m as [d|e] eqn:Ef end;
    [|discriminate].
  cbn [bind] in E. injection E as <-. exists d. split; [reflexivity|].
  eapply foldM_shaped; [|exact Ef].
  apply (zero_ao_shaped isgga).
Qed.

Lemma eval_ao_shape_witness :
  exists r,
    eval_ao sample_eval_ao sample_cell_images [(0, 0, 0); (1, 0, 0)]
      (Some (1, 0, 0)) false 0%Z 0%nat None None None = Ok r /\
    exists d, r = Complex128 d /\ nd_shaped false 2 2 d.
Proof.
  eexists. split; [reflexivity|].
  apply (eval_ao_shape sample_eval_ao sample_cell_images
           [(0, 0, 0); (1, 0, 0)] (Some (1, 0, 0)) false 0%Z 0%nat None None
           None).
  reflexivity.
Defined.

(** X9: [eval_ao] raises nothing of its own but a broadcasting error: an
    exception it raises was raised by the molecular evaluator at one of
    the images, or it is the [ValueError] of a result that cannot be added
    into the buffer. *)
Theorem eval_ao_raises (f : ao_evaluator) (cell : Cell) (coords : list vec3)
    (kpt : option vec3) (isgga : bool) (relativity : Z) (bastart : nat)
    (bascount : option nat) (non0tab : option mask) (verbose : option Z)
    (e : exn) :
  eval_ao f cell coords kpt isgga relativity bastart bascount non0tab verbose
  = Raise e ->
  (exists T, In T (Ts (nimgs cell)) /\
     f cell (shift coords (lattice_vector (h cell) T)) isgga relativity
       bastart bascount non0tab verbose = Raise e) \/
  e = ValueError.
Proof.
  unfold eval_ao. intros E.
  match type of E with bind ?m _ = _ => destruct m as [d|e'] eqn:Ef end;
    [discriminate|].
  cbn [bind] in E. injection E as <-.
  destruct (foldM_raises f cell coords _ isgga relativity bastart bascount
              non0tab verbose (length coords) (nao_nr cell) _ _ e'
              (zero_ao_shaped isgga _ _) Ef) as [H|[H _]];
    [left; exact H|right; exact H].
Qed.

Lemma eval_ao_raises_witness :
  eval_ao no_eval_ao sample_cell_images [(0, 0, 0)] None true 0%Z 0%nat None
    None None = Raise NotImplementedError /\
  ((exists T, In T (Ts (nimgs sample_cell_images)) /\
      no_eval_ao sample_cell_images
        (shift [(0, 0, 0)] (lattice_vector (h sample_cell_images) T)) true
        0%Z 0%nat None None None = Raise NotImplementedError) \/
   NotImplementedError = ValueError).
Proof.
  split; [reflexivity|].
  apply (eval_ao_raises no_eval_ao sample_cell_images [(0, 0, 0)] None true
           0%Z 0%nat None None None NotImplementedError).
  reflexivity.
Defined.

(** ** More on the density evaluator *)

(** X10: when the rank of the orbital array does not fit the mode (rank 3
    in value-only mode, rank 2 in gradient mode), [eval_rho] and [eval_mat]
    both fail with [ValueError] at the shape unpacking, for either dtype. *)
Theorem eval_rank_mismatch (B : nat) (f : rho_evaluator) (g : mat_evaluator)
    (mol : Cell) (ao : ndarray) (dm : matrix) (w : list R) (rho : rho_array)
    (vrho : list R) (vsigma : option (list R)) (non0tab : option mask)
    (isgga : bool) (verbose : option Z) :
  leading_length ao <> 0%nat ->
  ao_rank ao <> (if isgga then 3 else 2)%nat ->
  eval_rho B f mol ao dm non0tab isgga verbose = Raise ValueError /\
  eval_mat B g mol ao w rho vrho vsigma non0tab isgga verbose = Raise ValueError.
Proof.
  intros Hl Hr.
  destruct ao as [[a|t]|[a|t]]; destruct isgga; cbn in Hl, Hr;
    try contradiction; try (split; reflexivity);
    (destruct a as [|r a]; [contradiction|split; reflexivity]).
Qed.

Lemma eval_rank_mismatch_witness :
  leading_length (Complex128 (Nd3 sample_ao3)) <> 0%nat /\
  ao_rank (Complex128 (Nd3 sample_ao3)) <> 2%nat /\
  eval_rho 96 no_eval_rho sample_cell (Complex128 (Nd3 sample_ao3)) sample_dm
    None false None = Raise ValueError /\
  eval_mat 96 no_eval_mat sample_cell (Complex128 (Nd3 sample_ao3)) [1]
    (Rho1 [1]) [1] None None false None = Raise ValueError.
Proof.
  split; [discriminate|]. split; [discriminate|].
  apply (eval_rank_mismatch 96 no_eval_rho no_eval_mat sample_cell
           (Complex128 (Nd3 sample_ao3)) sample_dm [1] (Rho1 [1]) [1] None
           None false None); discriminate.
Defined.



Lemma get2_zeros (a : mat R) (p i : nat) :
  get2 (map (map (fun _ : R => 0)) a) p i = 0.
Proof.
  unfold get2. apply (nth_map_map (fun _ : R => 0) a 0).
Qed.

Lemma four_term_real (a : mat R) (D : matrix) (n p : nat) :
  four_term (F64 a) D n p = inner (get2 a) (contraction a (real2 D) n) n p.
Proof.
  unfold four_term, inner, contraction. cbn [real2 imag2].
  rewrite (sum_n_ext n _ (fun _ => 0))
    by (intros j _; rewrite get2_zeros; ring).
  rewrite (sum_n_ext n
             (fun j => get2 (map (map (fun _ : R => 0)) a) p j * _) (fun _ => 0))
    by (intros j _; rewrite get2_zeros; ring).
  rewrite (sum_n_ext n
             (fun j => get2 a p j *
                       sum_n n
                         (fun i => get2 (map (map (fun _ : R => 0)) a) p i * _))
             (fun _ => 0)).
  - rewrite !sum_n_zero. ring.
  - intros j _. rewrite (sum_n_ext _ _ (fun _ => 0))
      by (intros i _; rewrite get2_zeros; ring).
    rewrite sum_n_zero. ring.
Qed.



Lemma braket_conj_hermitian_real (A D : matrix) (nao p : nat) :
  hermitian_on nao D -> Im (braket_conj A D nao p) = 0.
Proof.
  intros HD. unfold braket_conj. cbn [Im Csum_n].
  set (g := fun i j => Im (Cmul (Cmul (entry A p i) (entry D i j)) (Cconj (entry A p j)))).
  change (sum_n nao (fun i => sum_n nao (fun j => g i j)) = 0).
  assert (Hg : forall i j, (i < nao)%nat -> (j < nao)%nat -> g i j = - g j i).
  { intros i j Hi Hj. unfold g. rewrite (HD i j Hi Hj).
    unfold Cmul, Cconj. cbn [Re Im]. ring. }
  assert (E : sum_n nao (fun i => sum_n nao (fun j => g i j))
              = - sum_n nao (fun i => sum_n nao (fun j => g i j))).
  { rewrite sum_n_swap at 1.
    replace (- sum_n nao (fun i => sum_n nao (fun j => g i j)))
      with (-1 * sum_n nao (fun i => sum_n nao (fun j => g i j))) by ring.
    rewrite <- sum_n_scal_l. apply sum_n_ext. intros j Hj.
    rewrite <- sum_n_scal_l. apply sum_n_ext. intros i Hi.
    rewrite (Hg i j Hi Hj). ring. }
  lra.
Qed.

Lemma eval_rho_value_only (B : nat) (f : rho_evaluator) (mol : Cell)
    (A : mat C) (D : matrix) (non0tab : option mask) (verbose : option Z) :
  snd (matrix_shape D) = ncols A ->
  eval_rho B f mol (Complex128 (Nd2 A)) D non0tab false verbose
  = Ok (Rho1 (tabulate (nrows A) (four_term (C128 A) D (ncols A)))).
Proof.
  intros HD. unfold eval_rho, unpack_shape.
  cbn [as_matrix bind matrix_shape shape2].
  rewrite four_term_row; [reflexivity|reflexivity|assumption].
Qed.

(** X13: for a Hermitian density matrix nothing is lost in the real part:
    the value [eval_rho] returns at grid point p is the whole complex
    contraction Sum_ij A[p,i] D[i,j] conj(A[p,j]), whose imaginary part
    vanishes. *)
Theorem eval_rho_hermitian_exact (B : nat) (f : rho_evaluator) (mol : Cell)
    (A : mat C) (D : matrix) (non0tab : option mask) (verbose : option Z) :
  matrix_shape D = (ncols A, ncols A) ->
  hermitian_on (ncols A) D ->
  exists v,
    eval_rho B f mol (Complex128 (Nd2 A)) D non0tab false verbose
    = Ok (Rho1 v) /\
    length v = nrows A /\
    forall p, (p < nrows A)%nat ->
      braket_conj (C128 A) D (ncols A) p = RtoC (nth p v 0).
Proof.
  intros HS HD. eexists. split; [|split].
  - apply eval_rho_value_only. now rewrite HS.
  - apply length_tabulate.
  - intros p Hp. rewrite nth_tabulate by assumption.
    rewrite four_term_braket_conj.
    pose proof (braket_conj_hermitian_real (C128 A) D (ncols A) p HD) as Hi.
    destruct (braket_conj (C128 A) D (ncols A) p) as [x y].
    cbn [Re Im] in *. unfold RtoC. now rewrite Hi.
Qed.

Lemma sample_dm_hermitian : hermitian_on 2 sample_dm.
Proof.
  intros i j Hi Hj.
  destruct i as [|[|i]]; [| |lia]; (destruct j as [|[|j]]; [| |lia]);
    unfold entry, Cconj; cbn; f_equal; lra.
Qed.

Lemma eval_rho_hermitian_exact_witness :
  matrix_shape sample_dm = (ncols sample_ao, ncols sample_ao) /\
  hermitian_on (ncols sample_ao) sample_dm /\
  exists v,
    eval_rho 96 no_eval_rho sample_cell (Complex128 (Nd2 sample_ao)) sample_dm
      None false None = Ok (Rho1 v) /\
    length v = nrows sample_ao /\
    forall p, (p < nrows sample_ao)%nat ->
      braket_conj (C128 sample_ao) sample_dm (ncols sample_ao) p
      = RtoC (nth p v 0).
Proof.
  split; [reflexivity|]. split; [exact sample_dm_hermitian|].
  apply (eval_rho_hermitian_exact 96 no_eval_rho sample_cell sample_ao
           sample_dm None None); [reflexivity|exact sample_dm_hermitian].
Defined.

Lemma cmadd_rect (n m : nat) (a b : mat C) :
  rect n m a ->
  cmadd a b = tabulate2 n m (fun i j => Cadd (cget2 a i j) (cget2 b i j)).
Proof.
  intros Ha. unfold cmadd. rewrite (rect_nrows n m a Ha).
  destruct n as [|n]; [reflexivity|].
  now rewrite (rect_ncols (S n) m a Ha) by lia.
Qed.

Lemma vadd_tabulate (n : nat) (f g : nat -> R) :
  vadd (tabulate n f) (tabulate n g) = tabulate n (fun p => f p + g p).
Proof.
  unfold vadd. rewrite length_tabulate. apply tabulate_ext. intros p Hp.
  now rewrite !nth_tabulate.
Qed.

Lemma four_term_additive (A : matrix) (d1 d2 : mat C) (n p : nat) :
  rect n n d1 ->
  four_term A (C128 (cmadd d1 d2)) n p
  = four_term A (C128 d1) n p + four_term A (C128 d2) n p.
Proof.
  intros H1. rewrite (cmadd_rect n n d1 d2 H1).
  unfold four_term, inner, contraction. cbn [real2 imag2].
  rewrite <- !sum_n_plus, <- !sum_n_minus, <- !sum_n_plus.
  apply sum_n_ext. intros j Hj.
  rewrite <- !sum_n_scal_l.
  rewrite <- !sum_n_plus, <- !sum_n_minus, <- !sum_n_plus.
  apply sum_n_ext. intros i Hi.
  rewrite !get2_real, !get2_imag, !cget2_tabulate2 by assumption.
  unfold Cadd. cbn [Re Im]. ring.
Qed.

(** X14: the density is additive in the density matrix: for two complex
    matrices over the basis, the density of their sum is the entrywise sum
    of their densities. *)
Theorem eval_rho_additive (B : nat) (f : rho_evaluator) (mol : Cell)
    (A d1 d2 : mat C) (non0tab : option mask) (verbose : option Z) :
  rect (ncols A) (ncols A) d1 -> rect (ncols A) (ncols A) d2 ->
  exists v1 v2,
    eval_rho B f mol (Complex128 (Nd2 A)) (C128 d1) non0tab false verbose
    = Ok (Rho1 v1) /\
    eval_rho B f mol (Complex128 (Nd2 A)) (C128 d2) non0tab false verbose
    = Ok (Rho1 v2) /\
    eval_rho B f mol (Complex128 (Nd2 A)) (C128 (cmadd d1 d2)) non0tab false
      verbose
    = Ok (Rho1 (vadd v1 v2)).
Proof.
  intros H1 H2. do 2 eexists. split; [|split].
  - apply eval_rho_value_only. cbn. now apply rect_square_ncols.
  - apply eval_rho_value_only. cbn. now apply rect_square_ncols.
  - rewrite eval_rho_value_only.
    + rewrite vadd_tabulate. do 2 f_equal. apply tabulate_ext. intros p _.
      now apply four_term_additive.
    + cbn. apply rect_square_ncols. now apply rect_cmadd.
Qed.

Lemma eval_rho_additive_witness :
  rect (ncols sample_ao) (ncols sample_ao) sample_d1 /\
  rect (ncols sample_ao) (ncols sample_ao) sample_d2 /\
  exists v1 v2,
    eval_rho 96 no_eval_rho sample_cell (Complex128 (Nd2 sample_ao))
      (C128 sample_d1) None false None = Ok (Rho1 v1) /\
    eval_rho 96 no_eval_rho sample_cell (Complex128 (Nd2 sample_ao))
      (C128 sample_d2) None false None = Ok (Rho1 v2) /\
    eval_rho 96 no_eval_rho sample_cell (Complex128 (Nd2 sample_ao))
      (C128 (cmadd sample_d1 sample_d2)) None false None
    = Ok (Rho1 (vadd v1 v2)).
Proof.
  assert (H1 : rect (ncols sample_ao) (ncols sample_ao) sample_d1)
    by (split; [reflexivity|repeat constructor]).
  assert (H2 : rect (ncols sample_ao) (ncols sample_ao) sample_d2)
    by (split; [reflexivity|repeat constructor]).
  split; [exact H1|]. split; [exact H2|].
  exact (eval_rho_additive 96 no_eval_rho sample_cell sample_ao sample_d1
           sample_d2 None None H1 H2).
Defined.

(** ** More on the potential-matrix evaluator *)

Lemma scaled_contraction_vrho (X Y : mat R) (w vrho : list R) (n m k l : nat) :
  nrows Y = n -> ncols Y = m -> (l < m)%nat ->
  sum_n n (fun p => get2 X p k *
                    get2 (scale_rows Y (vmul (vscale 0.5 w) vrho)) p l)
  = 0.5 * sum_n n (fun p => nth p (vmul w vrho) 0 * (get2 X p k * get2 Y p l)).
Proof.
  intros Hn Hm Hl. rewrite <- sum_n_scal_l. apply sum_n_ext. intros p Hp.
  rewrite get2_scale_rows by lia.
  rewrite !nth_vmul, nth_vscale. ring.
Qed.

(** X15: in value-only mode with the default shell mask, for complex
    orbitals [A] with at least one grid point and any weights and [vrho]
    (one of each per grid point), [eval_mat] returns the matrix whose
    entry (i, j) is
    Sum_p w_p vrho_p conj(A[p,i]) A[p,j]. *)
Theorem eval_mat_value_only (B : nat) (f : mat_evaluator) (mol : Cell)
    (A : mat C) (w : list R) (rho : rho_array) (vrho : list R)
    (vsigma : option (list R)) (verbose : option Z) :
  A <> [] ->
  length w = nrows A ->
  length vrho = nrows A ->
  eval_mat B f mol (Complex128 (Nd2 A)) w rho vrho vsigma None false verbose
  = Ok (C128 (tabulate2 (ncols A) (ncols A)
                (weighted_overlap A (vmul w vrho) (nrows A)))).
Proof.
  intros HA _ _.
  assert (Hg : exists r0, getitem A 0 = Ok r0)
    by (destruct A as [|r0 A']; [contradiction|now exists r0]).
  destruct Hg as [r0 Hg].
  unfold eval_mat, unpack_shape, dtype_of_first. rewrite Hg.
  cbn [as_matrix bind matrix_shape shape2 dtype_eqb real2 imag2].
  do 2 f_equal.
  rewrite (symmetrized_entries (ncols A)) by apply assembled_square.
  apply tabulate2_ext. intros i j Hi Hj.
  rewrite !(complex_of_parts_square (ncols A))
    by (rewrite (madd_square (ncols A)) by apply rect_dot_ao_ao; apply rect_tabulate2).
  rewrite !cget2_tabulate2 by assumption.
  rewrite !(madd_square (ncols A)), !(msub_square (ncols A)) by apply rect_dot_ao_ao.
  rewrite !get2_tabulate2 by assumption.
  rewrite !get2_dot_ao_ao by assumption.
  rewrite !(scaled_contraction_vrho _ _ w vrho (nrows A) (ncols A))
    by (assumption || apply nrows_map || apply ncols_map_map).
  rewrite weighted_overlap_parts.
  rewrite (weighted_sum_sym (map (map Re) A) (map (map Re) A) (vmul w vrho) (nrows A) j i).
  rewrite (weighted_sum_sym (map (map Im) A) (map (map Im) A) (vmul w vrho) (nrows A) j i).
  rewrite (weighted_sum_sym (map (map Re) A) (map (map Im) A) (vmul w vrho) (nrows A) j i).
  rewrite (weighted_sum_sym (map (map Im) A) (map (map Re) A) (vmul w vrho) (nrows A) j i).
  unfold Cadd, Cconj, Cmul, RtoC, Ci. cbn [Re Im]. f_equal; lra.
Qed.

Lemma eval_mat_value_only_witness :
  sample_ao <> [] /\
  length [5] = nrows sample_ao /\
  length [3] = nrows sample_ao /\
  eval_mat 96 no_eval_mat sample_cell (Complex128 (Nd2 sample_ao)) [5]
    (Rho1 [2]) [3] None None false None
  = Ok (C128 (tabulate2 (ncols sample_ao) (ncols sample_ao)
                (weighted_overlap sample_ao (vmul [5] [3]) (nrows sample_ao)))).
Proof.
  split; [discriminate|]. split; [reflexivity|]. split; [reflexivity|].
  apply (eval_mat_value_only 96 no_eval_mat sample_cell sample_ao [5]
           (Rho1 [2]) [3] None None).
  - discriminate.
  - reflexivity.
  - reflexivity.
Defined.



Lemma hermitian_diag_real (M : mat C) (i : nat) : hermitian M -> Im (cget2 M i i) = 0.
Proof.
  intros H. pose proof (H i i) as E.
  destruct (cget2 M i i) as [x y]. unfold Cconj in E. cbn [Re Im] in *.
  injection E as E. lra.
Qed.

(** X17: a matrix that [eval_mat] returns on complex orbitals is an
    (nao, nao) complex matrix, nao being the basis size unpacked from the
    orbital array, and its diagonal is real. *)
Theorem eval_mat_shape_diag (B : nat) (f : mat_evaluator) (mol : Cell)
    (ao : ndarray) (w : list R) (rho : rho_array) (vrho : list R)
    (vsigma : option (list R)) (non0tab : option mask) (isgga : bool)
    (verbose : option Z) (M : matrix) :
  dtype_of_first ao = Ok complex128 ->
  eval_mat B f mol ao w rho vrho vsigma non0tab isgga verbose = Ok M ->
  exists ngrids nao Mc,
    unpack_shape isgga ao = Ok (ngrids, nao) /\ M = C128 Mc /\
    rect nao nao Mc /\ forall i, Im (cget2 Mc i i) = 0.
Proof.
  intros Hdt. unfold eval_mat.
  destruct (unpack_shape isgga ao) as [[ngrids nao]|e]; [|discriminate].
  cbn [bind]. rewrite Hdt. cbn [bind dtype_eqb].
  match goal with |- context [bind ?m _] => destruct m as [[[[ao_re ao_im] aow_re] aow_im]|e] end;
    [|discriminate].
  cbn [bind]. intros H. injection H as <-.
  exists ngrids, nao. eexists. split; [reflexivity|]. split; [reflexivity|].
  destruct (symmetrized_hermitian nao _
              (assembled_square mol ao_re aow_re ao_im aow_im ao_re aow_im ao_im aow_re
                 nao ngrids (default_non0tab B mol ngrids non0tab)))
    as [Hr [_ Hh]].
  split; [exact Hr|]. intros i. now apply hermitian_diag_real.
Qed.

Lemma eval_mat_shape_diag_witness :
  dtype_of_first (Complex128 (Nd3 sample_ao3)) = Ok complex128 /\
  exists M,
    eval_mat 96 no_eval_mat sample_cell (Complex128 (Nd3 sample_ao3)) [1]
      (Rho2 [[1]; [1]; [1]; [1]]) [1] (Some [1]) None true None = Ok M /\
    exists ngrids nao Mc,
      unpack_shape true (Complex128 (Nd3 sample_ao3)) = Ok (ngrids, nao) /\
      M = C128 Mc /\ rect nao nao Mc /\ forall i, Im (cget2 Mc i i) = 0.
Proof.
  split; [reflexivity|].
  eexists. split; [reflexivity|].
  apply (eval_mat_shape_diag 96 no_eval_mat sample_cell
           (Complex128 (Nd3 sample_ao3)) [1] (Rho2 [[1]; [1]; [1]; [1]]) [1]
           (Some [1]) None true None); reflexivity.
Defined.

Lemma dot_ao_ao_ext (mol : Cell) (X Y Y' : mat R) (nao ngrids : nat) (nt : mask) :
  (forall p j, (p < ngrids)%nat -> (j < nao)%nat -> get2 Y p j = get2 Y' p j) ->
  _dot_ao_ao mol X Y nao ngrids nt = _dot_ao_ao mol X Y' nao ngrids nt.
Proof.
  intros H. unfold _dot_ao_ao. apply tabulate2_ext. intros i j Hi Hj.
  apply sum_n_ext. intros p Hp. now rewrite H.
Qed.

Lemma nth_all_zero (vs : list R) (p : nat) :
  Forall (fun x => x = 0) vs -> nth p vs 0 = 0.
Proof.
  intros H. destruct (Nat.lt_ge_cases p (length vs)) as [Hp|Hp].
  - rewrite Forall_forall in H. apply H. now apply nth_In.
  - now apply nth_overflow.
Qed.

Lemma sum_n_head (k : nat) (f : nat -> R) :
  (forall n, (1 <= n <= k)%nat -> f n = 0) -> sum_n (S k) f = f 0%nat.
Proof.
  induction k as [|k IH]; intros H; [simpl; ring|].
  change (sum_n (S (S k)) f) with (sum_n (S k) f + f (S k)).
  rewrite IH by (intros n Hn; apply H; lia).
  rewrite (H (S k)) by lia. ring.
Qed.

Lemma nth_vtimes (u : list R) (c : R) (p : nat) :
  nth p (vtimes u c) 0 = nth p u 0 * c.
Proof.
  unfold vtimes. replace 0 with (0 * c) at 1 by ring.
  apply (map_nth (fun x => x * c)).
Qed.

(** The gradient rows of the weights vanish with [vsigma]. *)
Lemma wv_gradient_rows_zero (w vs : list R) (m : nat) (row0 : list R)
    (rr : mat R) (n p : nat) :
  Forall (fun x => x = 0) vs ->
  get2 (row0 ::
        map (fun r => tabulate m
                        (fun p => nth p r 0 * nth p (vtimes (vmul w vs) 2) 0)) rr)
       (S n) p = 0.
Proof.
  intros Hvs. unfold get2. cbn [nth].
  destruct (Nat.lt_ge_cases n (length rr)) as [Hn|Hn].
  - rewrite (nth_indep _ [] (tabulate m
               (fun p => nth p [] 0 * nth p (vtimes (vmul w vs) 2) 0)))
      by now rewrite length_map.
    rewrite (map_nth (fun r => tabulate m
               (fun p => nth p r 0 * nth p (vtimes (vmul w vs) 2) 0))).
    destruct (Nat.lt_ge_cases p m) as [Hp|Hp].
    + rewrite nth_tabulate by assumption.
      rewrite nth_vtimes, nth_vmul, (nth_all_zero vs p Hvs). ring.
    + apply nth_overflow. now rewrite length_tabulate.
  - rewrite (nth_overflow (map _ rr)) by now rewrite length_map.
    now destruct p.
Qed.

(** X18: in gradient mode with [vsigma] identically zero the gradient rows
    of the orbital array and of the density drop out: on complex orbitals
    of shape (n, ngrids, nao), with a density of shape (n, ngrids) and
    weights, [vrho] and [vsigma] of length ngrids, [eval_mat] returns what
    value-only mode returns on the value row [ao[0]], whatever density and
    [vsigma] that call is given. *)
Theorem eval_mat_zero_vsigma (B : nat) (f : mat_evaluator) (mol : Cell)
    (a0 : mat C) (rest : list (mat C)) (w : list R) (r0 : list R) (rr : mat R)
    (rho' : rho_array) (vrho vs : list R) (vsigma' : option (list R))
    (non0tab : option mask) (verbose : option Z) :
  a0 <> [] ->
  Forall (rect (nrows a0) (ncols a0)) (a0 :: rest) ->
  Forall (fun r => length r = nrows a0) (r0 :: rr) ->
  length rr = length rest ->
  length w = nrows a0 ->
  length vrho = nrows a0 ->
  length vs = nrows a0 ->
  Forall (fun x => x = 0) vs ->
  eval_mat B f mol (Complex128 (Nd3 (a0 :: rest))) w (Rho2 (r0 :: rr)) vrho
    (Some vs) non0tab true verbose
  = eval_mat B f mol (Complex128 (Nd2 a0)) w rho' vrho vsigma' non0tab false
      verbose.
Proof.
  intros Ha _ Hrho _ _ _ _ Hvs.
  assert (Hr : length r0 = nrows a0) by now inversion Hrho.
  assert (Hg : exists x, getitem a0 0 = Ok x)
    by (destruct a0 as [|x a0']; [contradiction|now exists x]).
  destruct Hg as [x Hg].
  unfold eval_mat, unpack_shape, dtype_of_first. rewrite Hg.
  cbn [component as_matrix getitem nth_error bind matrix_shape shape2 dtype_eqb
       is_none negb andb ndim Nat.eqb py_assert einsum_npi_np_pi tl nth
       real2 imag2].
  set (wv := _ :: map _ rr).
  set (nt := default_non0tab B mol (nrows a0) non0tab).
  assert (Hwv0 : forall p, (p < nrows a0)%nat ->
            get2 wv 0 p = nth p (vmul (vscale 0.5 w) vrho) 0).
  { intros p Hp. unfold wv, get2. cbn [nth].
    rewrite nth_tabulate by (unfold ncols; cbn [hd]; lia).
    rewrite nth_vtimes, !nth_vmul, nth_vscale. ring. }
  assert (Hsum : forall p i, (p < nrows a0)%nat ->
            Csum_n (length (a0 :: rest))
              (fun n => Cmul (cget3 (a0 :: rest) n p i) (RtoC (get2 wv n p)))
            = Cmul (cget2 a0 p i) (RtoC (nth p (vmul (vscale 0.5 w) vrho) 0))).
  { intros p i Hp. unfold Csum_n. cbn [length].
    rewrite !sum_n_head.
    - rewrite Hwv0 by assumption. unfold cget3. cbn [nth].
      unfold Cmul, RtoC. cbn [Re Im]. reflexivity.
    - intros n Hn. destruct n as [|n]; [lia|].
      unfold wv. rewrite wv_gradient_rows_zero by assumption.
      unfold Cmul, RtoC. cbn [Re Im]. ring.
    - intros n Hn. destruct n as [|n]; [lia|].
      unfold wv. rewrite wv_gradient_rows_zero by assumption.
      unfold Cmul, RtoC. cbn [Re Im]. ring. }
  assert (Hre : forall p j, (p < nrows a0)%nat -> (j < ncols a0)%nat ->
            get2 (map (map Re)
                    (tabulate2 (nrows a0) (ncols a0)
                       (fun p i => Csum_n (length (a0 :: rest))
                          (fun n => Cmul (cget3 (a0 :: rest) n p i)
                                      (RtoC (get2 wv n p)))))) p j
            = get2 (scale_rows (map (map Re) a0) (vmul (vscale 0.5 w) vrho)) p j).
  { intros p j Hp Hj. rewrite get2_real, cget2_tabulate2, Hsum by assumption.
    rewrite get2_scale_rows by (rewrite ?nrows_map, ?ncols_map_map; assumption).
    rewrite get2_real. unfold Cmul, RtoC. cbn [Re Im]. ring. }
  assert (Him : forall p j, (p < nrows a0)%nat -> (j < ncols a0)%nat ->
            get2 (map (map Im)
                    (tabulate2 (nrows a0) (ncols a0)
                       (fun p i => Csum_n (length (a0 :: rest))
                          (fun n => Cmul (cget3 (a0 :: rest) n p i)
                                      (RtoC (get2 wv n p)))))) p j
            = get2 (scale_rows (map (map Im) a0) (vmul (vscale 0.5 w) vrho)) p j).
  { intros p j Hp Hj. rewrite get2_imag, cget2_tabulate2, Hsum by assumption.
    rewrite get2_scale_rows by (rewrite ?nrows_map, ?ncols_map_map; assumption).
    rewrite get2_imag. unfold Cmul, RtoC. cbn [Re Im]. ring. }
  rewrite !(dot_ao_ao_ext mol _ _ _ _ _ nt Hre).
  rewrite !(dot_ao_ao_ext mol _ _ _ _ _ nt Him).
  reflexivity.
Qed.

Lemma eval_mat_zero_vsigma_witness :
  [[mkC 1 0; mkC 0 1]] <> [] /\
  eval_mat 96 no_eval_mat sample_cell (Complex128 (Nd3 sample_ao3)) [5]
    (Rho2 [[1]; [2]; [3]; [4]]) [3] (Some [0]) None true None
  = eval_mat 96 no_eval_mat sample_cell (Complex128 (Nd2 [[mkC 1 0; mkC 0 1]]))
      [5] (Rho1 [1]) [3] None None false None.
Proof.
  split; [discriminate|].
  apply (eval_mat_zero_vsigma 96 no_eval_mat sample_cell [[mkC 1 0; mkC 0 1]]
           [[[mkC 0 1; mkC 1 0]]; [[mkC 1 1; mkC 0 0]]; [[mkC 0 0; mkC 2 0]]]
           [5] [1] [[2]; [3]; [4]] (Rho1 [1]) [3] [0] None None None).
  - discriminate.
  - repeat constructor.
  - repeat constructor.
  - reflexivity.
  - reflexivity.
  - reflexivity.
  - reflexivity.
  - repeat constructor.
Defined.

(** ** The adapter at the zero-momentum point *)

(** X19: through the adapter bound to no k-point, when the molecular
    evaluator returns an (ngrids, nao) array at every image and [D] is an
    (nao, nao) matrix, evaluating the orbitals and then the density of [D]
    (value-only mode) gives
    Sum_ij S[p,i] Re(D[i,j]) S[p,j], where S is the sum of the molecular
    orbital values over the lattice images. *)
Theorem adapter_gamma_density (B : nat) (f : ao_evaluator) (g : rho_evaluator)
    (s : _NumInt.self) (cell : Cell) (coords : list vec3) (relativity : Z)
    (bastart : nat) (bascount : option nat) (non0tab : option mask)
    (verbose : option Z) (a : Z * Z * Z -> mat R) (D : matrix) :
  _NumInt.kpt s = None ->
  coords <> [] ->
  (forall T, In T (Ts (nimgs cell)) ->
     f cell (shift coords (lattice_vector (h cell) T)) false relativity bastart
       bascount non0tab verbose = Ok (Nd2 (a T))) ->
  (forall T, In T (Ts (nimgs cell)) ->
     rect (length coords) (nao_nr cell) (a T)) ->
  matrix_shape D = (nao_nr cell, nao_nr cell) ->
  (ao <- _NumInt.eval_ao f s cell coords false relativity bastart bascount
           non0tab verbose ;;
   _NumInt.eval_rho B g s cell ao D non0tab false verbose)
  = (let S := tabulate2 (length coords) (nao_nr cell) (image_sum cell a) in
     Ok (Rho1 (tabulate (length coords)
                 (inner (get2 S) (contraction S (real2 D) (nao_nr cell))
                    (nao_nr cell))))).
Proof.
  intros Hk Hc Hf _ HD'. cbv zeta.
  assert (HD : snd (matrix_shape D) = nao_nr cell) by now rewrite HD'.
  unfold _NumInt.eval_ao, _NumInt.eval_rho, eval_ao. rewrite Hk. unfold zeros2.
  rewrite (foldM_bloch f cell coords (0, 0, 0) relativity bastart bascount
             non0tab verbose a _ _ _ Hf).
  cbn [bind].
  set (S := tabulate2 (length coords) (nao_nr cell) (image_sum cell a)).
  assert (E : tabulate2 (length coords) (nao_nr cell)
                (fun p i => fold_left
                   (fun acc T => Cadd acc (Cmul (bloch_phase cell (0, 0, 0) T)
                                             (RtoC (get2 (a T) p i))))
                   (Ts (nimgs cell)) C0)
              = map (map RtoC) S).
  { unfold S. rewrite map_tabulate2. apply tabulate2_ext. intros p i _ _.
    apply (fold_left_real_images cell a p i). }
  rewrite E.
  assert (HS : rect (length coords) (nao_nr cell) S) by apply rect_tabulate2.
  assert (Hn : nrows S = length coords) by apply (rect_nrows _ _ _ HS).
  assert (Hm : ncols S = nao_nr cell).
  { apply (rect_ncols _ _ _ HS). destruct coords; [contradiction|simpl; lia]. }
  unfold eval_rho, unpack_shape.
  cbn [as_matrix bind matrix_shape shape2].
  rewrite nrows_map, ncols_map_map, Hn, Hm.
  rewrite (four_term_row cell (C128 (map (map RtoC) S)) D)
    by (cbn; unfold shape2; rewrite ?nrows_map, ?ncols_map_map; congruence).
  do 2 f_equal. apply tabulate_ext. intros p _.
  rewrite <- four_term_real. unfold four_term. cbn [real2 imag2].
  now rewrite real_astype, imag_astype.
Qed.

Lemma adapter_gamma_density_witness :
  _NumInt.kpt (_NumInt.__init__ None) = None /\
  [(0, 0, 0)] <> @nil vec3 /\
  (forall T, In T (Ts (nimgs sample_cell_images)) ->
     rect 1 2 (sample_images T)) /\
  matrix_shape sample_dm = (nao_nr sample_cell_images, nao_nr sample_cell_images) /\
  (ao <- _NumInt.eval_ao sample_eval_ao (_NumInt.__init__ None)
           sample_cell_images [(0, 0, 0)] false 0%Z 0%nat None None None ;;
   _NumInt.eval_rho 96 no_eval_rho (_NumInt.__init__ None) sample_cell_images
     ao sample_dm None false None)
  = (let S := tabulate2 1 2 (image_sum sample_cell_images sample_images) in
     Ok (Rho1 (tabulate 1 (inner (get2 S) (contraction S (real2 sample_dm) 2) 2)))).
Proof.
  split; [reflexivity|]. split; [discriminate|].
  split; [intros T _; apply sample_images_rect|]. split; [reflexivity|].
  apply (adapter_gamma_density 96 sample_eval_ao no_eval_rho
           (_NumInt.__init__ None) sample_cell_images [(0, 0, 0)] 0%Z 0%nat
           None None None sample_images sample_dm).
  - reflexivity.
  - discriminate.
  - intros T _. reflexivity.
  - intros T _. apply sample_images_rect.
  - reflexivity.
Defined.
